(** * atomai/utils/preproc.py : shape inference and batching

    A shallow embedding of the class counter, the two rank normalisers, the
    batcher and the pipeline of [atomai/utils/preproc.py], with the
    properties its specification states about them.

    - A numpy array is its shape together with its elements in row-major
      (C) order, which is how numpy itself stores a contiguous array.
    - Python integers and numpy integer scalars are [Z].
    - The functions raise exceptions and emit warnings: they live in a
      small monad that carries the warnings emitted so far and either a
      value or the exception raised. *)

From Stdlib Require Import String.
From Stdlib Require Import List ZArith Lia Bool Sorted Arith.
Import ListNotations.
Local Open Scope string_scope.
Local Open Scope list_scope.

Set Implicit Arguments.

(** ** Exceptions and warnings *)

Inductive exn : Type :=
| AssertionError (msg : string)
| TypeError (msg : string)
| ValueError (msg : string)
| IndexError (msg : string)
| AxisError (msg : string).

Inductive outcome (A : Type) : Type :=
| Ret (a : A)
| Raise (e : exn).
Arguments Raise {A} e.

(** A computation: the [UserWarning]s emitted by [warnings.warn], oldest
    first, and how the computation ended.  The list holds the warnings of
    the functions of [preproc.py] themselves; a [RuntimeWarning] that numpy
    gives on its own (a zero divisor, an invalid value) is not in it, so an
    empty list says that [warnings.warn] was not called, not that numpy
    was silent. *)
Definition M (A : Type) : Type := (list string * outcome A)%type.

Definition ret {A} (a : A) : M A := ([], Ret a).
Definition raise {A} (e : exn) : M A := ([], Raise e).
Definition warn (msg : string) : M unit := ([msg], Ret tt).

Definition bind {A B} (m : M A) (f : A -> M B) : M B :=
  match m with
  | (w, Ret a) => let (w', r) := f a in (w ++ w', r)
  | (w, Raise e) => (w, Raise e)
  end.

Notation "x <- m ;; k" := (bind m (fun x => k))
  (at level 61, m at next level, right associativity).
Notation "' p <- m ;; k" := (bind m (fun x => match x with p => k end))
  (at level 61, p pattern, m at next level, right associativity).
Notation "m ;;; k" := (bind m (fun _ => k))
  (at level 61, right associativity).

(** [if c: warnings.warn(msg); x = f(x)] *)
Definition when_ {A} (c : bool) (msg : string) (f : A -> M A) (x : A) : M A :=
  if c then warn msg ;;; f x else ret x.

(** ** numpy arrays *)

Record ndarray (A : Type) : Type := mk_ndarray {
  shape : list nat;
  data : list A
}.

Definition prod (s : list nat) : nat := fold_right Nat.mul 1%nat s.

(** A real array holds exactly as many elements as its shape says. *)
Definition wf {A} (a : ndarray A) : Prop :=
  length (data a) = prod (shape a).

Definition ndim {A} (a : ndarray A) : Z := Z.of_nat (length (shape a)).

(** [a.shape[0]] : a 0-d array has an empty shape tuple. *)
Definition shape0 {A} (a : ndarray A) : M nat :=
  match shape a with
  | [] => raise (IndexError "tuple index out of range")
  | n :: _ => ret n
  end.

(** [s[:axis] + (1,) + s[axis:]] *)
Definition insert_axis (axis : nat) (s : list nat) : list nat :=
  firstn axis s ++ 1%nat :: skipn axis s.

(** [np.expand_dims(a, axis)] for a non-negative axis: a view of the same
    elements with a unit axis inserted; the axis must be at most [a.ndim]. *)
Definition expand_dims {A} (axis : nat) (a : ndarray A) : M (ndarray A) :=
  if (axis <=? length (shape a))%nat
  then ret (mk_ndarray (insert_axis axis (shape a)) (data a))
  else raise (AxisError "axis is out of bounds for array").

(** [a[:, np.newaxis]] : the full slice consumes axis 0, which a 0-d array
    does not have; otherwise a unit axis appears at position 1. *)
Definition getitem_colon_newaxis {A} (a : ndarray A) : M (ndarray A) :=
  match shape a with
  | [] => raise (IndexError "too many indices for array")
  | _ :: _ => ret (mk_ndarray (insert_axis 1 (shape a)) (data a))
  end.

(** [a[lo:hi]] on axis 0 for non-negative bounds, which numpy clamps to the
    length of the axis.  It is only used on arrays that have an axis 0: the
    callers below have read [shape[0]] before. *)
Definition slice0 {A} (lo hi : nat) (a : ndarray A) : ndarray A :=
  match shape a with
  | [] => a
  | n :: rest =>
      let h := Nat.min hi n in
      let l := Nat.min lo h in
      mk_ndarray ((h - l) :: rest)%nat
        (firstn ((h - l) * prod rest) (skipn (l * prod rest) (data a)))
  end.

(** The stop index of [a[:k]] on an axis of length [n]: a negative [k]
    counts from the end. *)
Definition slice_stop (n : nat) (k : Z) : nat :=
  if (k <? 0)%Z then Z.to_nat (Z.max 0 (Z.of_nat n + k))
  else Nat.min (Z.to_nat k) n.

(** [a[:k]] *)
Definition getitem_upto {A} (k : Z) (a : ndarray A) : M (ndarray A) :=
  match shape a with
  | [] => raise (IndexError "too many indices for array")
  | n :: _ => ret (slice0 0 (slice_stop n k) a)
  end.

(** Integer [//] and [%] of numpy scalars: floored, and a zero divisor
    gives 0 (numpy only warns, with a [RuntimeWarning] that is not
    recorded).  The operands are taken within int64, as sample counts are:
    numpy refuses a Python integer beyond it with an [OverflowError]
    instead. *)
Definition np_floordiv (a b : Z) : Z := if (b =? 0)%Z then 0%Z else (a / b)%Z.
Definition np_mod (a b : Z) : Z := if (b =? 0)%Z then 0%Z else (a mod b)%Z.

(** [np.divmod(a, b)] *)
Definition np_divmod (a b : Z) : Z * Z := (np_floordiv a b, np_mod a b).

Definition msg_division : string :=
  "array split does not result in an equal division".
Definition msg_sections : string := "number sections must be larger than 0.".

(** [np.split(ary, sections)] on axis 0 with an integer [sections]:
    [split] refuses a length that [sections] does not divide, [array_split]
    refuses [sections <= 0], and the sub-arrays are the consecutive slices
    [ary[i*each : (i+1)*each]] for [i] in [range(sections)]. *)
Definition np_split {A} (ary : ndarray A) (sections : Z) : M (list (ndarray A)) :=
  N <- shape0 ary ;;
  if negb (np_mod (Z.of_nat N) sections =? 0)%Z
  then raise (ValueError msg_division)
  else if (sections <=? 0)%Z
  then raise (ValueError msg_sections)
  else
    let each := (N / Z.to_nat sections)%nat in
    ret (map (fun i => slice0 (i * each) ((i + 1) * each) ary)
             (seq 0 (Z.to_nat sections))).

(** [np.unique(a)] : the sorted distinct elements of the flattened array. *)
Fixpoint insert_unique (x : Z) (l : list Z) : list Z :=
  match l with
  | [] => [x]
  | y :: l' =>
      if (x <? y)%Z then x :: l
      else if (x =? y)%Z then l
      else y :: insert_unique x l'
  end.

Definition unique (a : ndarray Z) : list Z :=
  fold_right insert_unique [] (data a).

(** Python's builtin [min] over a sequence. *)
Definition py_min (l : list Z) : M Z :=
  match l with
  | [] => raise (ValueError "min() arg is an empty sequence")
  | x :: l' => ret (fold_left Z.min l' x)
  end.

(** ** The class counter *)

Definition msg_start : string := "Labels should start from 0".
Definition msg_step : string :=
  "Mask values should be in range between 0 and total number of classes with an increment of 1".

(** [for i, j in zip(uval, uval[1:]): if j - i != 1: raise ...] *)
Fixpoint check_increments (ps : list (Z * Z)) : M unit :=
  match ps with
  | [] => ret tt
  | (i, j) :: ps' =>
      if negb (j - i =? 1)%Z then raise (AssertionError msg_step)
      else check_increments ps'
  end.

Definition num_classes_from_labels (labels : ndarray Z) : M Z :=
  let uval := unique labels in
  m <- py_min uval ;;
  (if negb (m =? 0)%Z then raise (AssertionError msg_start) else ret tt) ;;;
  check_increments (combine uval (tl uval)) ;;;
  let num_classes := Z.of_nat (length uval) in
  let num_classes := if (num_classes =? 2)%Z then (num_classes - 1)%Z else num_classes in
  ret num_classes.

(** ** The rank normalisers *)

Definition warn_train_images := "Adding a channel dimension of 1 to training images".
Definition warn_test_images := "Adding a channel dimension of 1 to test images".
Definition warn_train_labels := "Adding a channel dimension of 1 to training labels".
Definition warn_test_labels := "Adding a channel dimension of 1 to test labels".
Definition warn_train_spectra := "Adding a channel dimension of 1 to training spectra".
Definition warn_test_spectra := "Adding a channel dimension of 1 to test spectra".

Section Transforms.
Variables A B : Type.

Definition check_image_dims (X_train : ndarray A) (y_train : ndarray B)
    (X_test : ndarray A) (y_test : ndarray B) (num_classes : Z)
    : M (ndarray A * ndarray B * ndarray A * ndarray B) :=
  X_train <- when_ (ndim X_train =? 3)%Z
               warn_train_images getitem_colon_newaxis X_train ;;
  X_test <- when_ (ndim X_test =? 3)%Z
               warn_test_images getitem_colon_newaxis X_test ;;
  y_train <- when_ ((num_classes =? 1)%Z && (ndim y_train =? 3)%Z)
               warn_train_labels getitem_colon_newaxis y_train ;;
  y_test <- when_ ((num_classes =? 1)%Z && (ndim y_test =? 3)%Z)
               warn_test_labels getitem_colon_newaxis y_test ;;
  ret (X_train, y_train, X_test, y_test).

Definition check_signal_dims (X_train : ndarray A) (y_train : ndarray B)
    (X_test : ndarray A) (y_test : ndarray B)
    : M (ndarray A * ndarray B * ndarray A * ndarray B) :=
  if (ndim X_train >? ndim y_train)%Z then
    X_train' <- when_ (ndim X_train =? 3)%Z
                 warn_train_images (expand_dims 1) X_train ;;
    X_test' <- when_ (ndim X_test =? 3)%Z
                 warn_test_images (expand_dims 1) X_test ;;
    y_train' <- when_ (ndim y_train =? 2)%Z
                 warn_train_spectra (expand_dims 1) y_train ;;
    y_test' <- when_ (ndim y_test =? 2)%Z
                 warn_test_spectra (expand_dims 1) y_test ;;
    ret (X_train', y_train', X_test', y_test')
  else if (ndim X_train <? ndim y_train)%Z then
    X_train' <- when_ (ndim X_train =? 2)%Z
                 warn_train_images (expand_dims 1) X_train ;;
    X_test' <- when_ (ndim X_test =? 2)%Z
                 warn_test_images (expand_dims 1) X_test ;;
    y_train' <- when_ (ndim y_train =? 3)%Z
                 warn_train_spectra (expand_dims 1) y_train ;;
    y_test' <- when_ (ndim y_test =? 3)%Z
                 warn_test_spectra (expand_dims 1) y_test ;;
    ret (X_train', y_train', X_test', y_test')
  else ret (X_train, y_train, X_test, y_test).

(** ** The batcher *)

Definition ndarray2list (X_train : ndarray A) (y_train : ndarray B)
    (X_test : ndarray A) (y_test : ndarray B) (batch_size : Z)
    : M (list (ndarray A) * list (ndarray B)
         * list (ndarray A) * list (ndarray B)) :=
  n_train <- shape0 X_train ;;
  let n_train_batches := fst (np_divmod (Z.of_nat n_train) batch_size) in
  n_test <- shape0 X_test ;;
  let n_test_batches := fst (np_divmod (Z.of_nat n_test) batch_size) in
  X_train_cut <- getitem_upto (n_train_batches * batch_size) X_train ;;
  X_train' <- np_split X_train_cut n_train_batches ;;
  y_train_cut <- getitem_upto (n_train_batches * batch_size) y_train ;;
  y_train' <- np_split y_train_cut n_train_batches ;;
  X_test_cut <- getitem_upto (n_test_batches * batch_size) X_test ;;
  X_test' <- np_split X_test_cut n_test_batches ;;
  y_test_cut <- getitem_upto (n_test_batches * batch_size) y_test ;;
  y_test' <- np_split y_test_cut n_test_batches ;;
  ret (X_train', y_train', X_test', y_test').

End Transforms.

(** ** The pipeline *)

(** An argument of the pipeline is any Python object: a numpy array or
    something else (a list, [None], a tensor, ...). *)
Inductive pyobj (A : Type) : Type :=
| PyArray (a : ndarray A)
| PyOther (repr : string).
Arguments PyOther {A} repr.


Definition msg_type : string :=
  "Provide training and test data in the form of numpy arrays".

Section Pipeline.
Variable A : Type.

(** The [isinstance] test on the four inputs comes first: unless all four
    are arrays, [TypeError] is raised before anything else is done. *)
Definition preprocess_training_image_data
    (images_all : pyobj A) (labels_all : pyobj Z)
    (images_test_all : pyobj A) (labels_test_all : pyobj Z) (batch_size : Z)
    : M (list (ndarray A) * list (ndarray Z)
         * list (ndarray A) * list (ndarray Z) * Z) :=
  match images_all, labels_all, images_test_all, labels_test_all with
  | PyArray images, PyArray labels, PyArray images_test, PyArray labels_test =>
      num_classes <- num_classes_from_labels labels ;;
      '(images, labels, images_test, labels_test) <-
        check_image_dims images labels images_test labels_test num_classes ;;
      '(images, labels, images_test, labels_test) <-
        ndarray2list images labels images_test labels_test batch_size ;;
      ret (images, labels, images_test, labels_test, num_classes)
  | _, _, _, _ => raise (TypeError msg_type)
  end.

End Pipeline.

(** [np.concatenate(chunks)] along axis 0, used to state that batching keeps
    the samples in order.  [concat_axis0 rest chunks] adds up the lengths of
    the chunks and appends their elements; every chunk must have the
    trailing axes [rest].  There must be at least one chunk. *)
Fixpoint concat_axis0 {A} (rest : list nat) (chunks : list (ndarray A))
    : option (nat * list A) :=
  match chunks with
  | [] => Some (0%nat, [])
  | c :: cs =>
      match shape c, concat_axis0 rest cs with
      | n :: r, Some (m, d) =>
          if list_eq_dec Nat.eq_dec r rest then Some ((n + m)%nat, data c ++ d)
          else None
      | _, _ => None
      end
  end.

Definition concatenate {A} (chunks : list (ndarray A)) : option (ndarray A) :=
  match chunks with
  | [] => None
  | c :: _ =>
      match shape c with
      | [] => None
      | _ :: rest =>
          match concat_axis0 rest chunks with
          | Some (n, d) => Some (mk_ndarray (n :: rest) d)
          | None => None
          end
      end
  end.

(** ** Vocabulary of the properties *)

(** [zrange a n] is [a, a+1, ..., a+n-1]. *)
Fixpoint zrange (a : Z) (n : nat) : list Z :=
  match n with
  | O => []
  | S n' => a :: zrange (a + 1) n'
  end.

(** [m] is the least element of [l]. *)
Definition is_minimum (m : Z) (l : list Z) : Prop :=
  In m l /\ forall z, In z l -> (m <= z)%Z.

(** The values of [l] are consecutive integers: no integer between two of
    them is missing. *)
Definition consecutive (l : list Z) : Prop :=
  forall x y z, In x l -> In y l -> (x <= z <= y)%Z -> In z l.

(** The array [a] with a unit axis inserted at position 1. *)
Definition add_channel {A} (a : ndarray A) : ndarray A :=
  mk_ndarray (insert_axis 1 (shape a)) (data a).

(** [a] with a channel axis if its rank is [r], else [a] itself. *)
Definition expand_at_rank {A} (r : Z) (a : ndarray A) : ndarray A :=
  if (ndim a =? r)%Z then add_channel a else a.

(** The warning that goes with [expand_at_rank]. *)
Definition notice {A} (r : Z) (msg : string) (a : ndarray A) : list string :=
  if (ndim a =? r)%Z then [msg] else [].

(** The rule for label masks: they get a channel axis only for one class. *)
Definition expand_label {A} (num_classes : Z) (a : ndarray A) : ndarray A :=
  if (num_classes =? 1)%Z then expand_at_rank 3 a else a.

Definition notice_label {A} (num_classes : Z) (msg : string) (a : ndarray A)
    : list string :=
  if (num_classes =? 1)%Z then notice 3 msg a else [].

(** [a'] is [a] with a channel axis when [a] has rank [r] (its rank is then
    [r + 1]), and is [a] itself when [a] has any other rank. *)
Definition channel_added_at {A} (r : Z) (a a' : ndarray A) : Prop :=
  (ndim a = r -> a' = add_channel a /\ ndim a' = (r + 1)%Z)
  /\ (ndim a <> r -> a' = a).

(** Chunk number [i] of size [each] of the elements [d] of an array whose
    trailing axes are [rest]: samples [i*each .. (i+1)*each - 1]. *)
Definition chunk_of {A} (rest : list nat) (each : nat) (d : list A) (i : nat)
    : ndarray A :=
  mk_ndarray (each :: rest)
    (firstn (each * prod rest) (skipn (i * (each * prod rest)) d)).

(** The batches of size [b] of [a]: the first [n / b] chunks, [n] being the
    number of samples of [a]; what is left over belongs to no batch. *)
Definition batches {A} (b : nat) (a : ndarray A) : list (ndarray A) :=
  match shape a with
  | [] => []
  | n :: rest => map (chunk_of rest b (data a)) (seq 0 (n / b))
  end.

(** A computation that emits no warning. *)
Definition silent {A} (m : M A) : Prop := fst m = [].

(** The result of a computation seen through [g]. *)
Definition fmap {A B} (g : A -> B) (m : M A) : M B := x <- m ;; ret (g x).



(** The shapes of the chunks of a result of the pipeline, with the class
    count. *)
Definition shapes_of {A B} (r : list (ndarray A) * list (ndarray B)
                               * list (ndarray A) * list (ndarray B) * Z) :=
  let '(lX, ly, lXt, lyt, nc) := r in
  (map (@shape A) lX, map (@shape B) ly, map (@shape A) lXt,
   map (@shape B) lyt, nc).

(** Arrays used in examples: [np.arange(prod(s)).reshape(s)],
    [np.full(s, v)], and a mask of shape [s] whose values are
    0, 1, ..., k-1 in turn. *)
Definition arange (s : list nat) : ndarray Z :=
  mk_ndarray s (zrange 0 (prod s)).
Definition full (s : list nat) (v : Z) : ndarray Z :=
  mk_ndarray s (repeat v (prod s)).
Fixpoint cycle (k cur : Z) (n : nat) : list Z :=
  match n with
  | O => []
  | S n' => cur :: cycle k (if (cur + 1 =? k)%Z then 0%Z else (cur + 1)%Z) n'
  end.
Definition mask (k : Z) (s : list nat) : ndarray Z :=
  mk_ndarray s (cycle k 0 (prod s)).

(** ** Conversion to tensors *)

Definition msg_amin_empty : string :=
  "zero-size array to reduction operation minimum which has no identity".
Definition msg_amax_empty : string :=
  "zero-size array to reduction operation maximum which has no identity".
Definition msg_image_rank : string :=
  "Provide image(s) as 3D (n, h, w) or 4D (n, 1, h, w) tensor".
Definition msg_image_channel : string :=
  "4D image tensor must have (n, 1, h, w) dimensions".
Definition msg_spectra_rank : string :=
  "Provide spectrum(s) as 2D (n, length) or 3D (n, 1, length) tensor".
Definition msg_spectra_channel : string :=
  "3D spectra tensor must have (n, 1, length) dimensions".
Definition msg_deprecated : string :=
  "torch_format is deprecated. Use torch_format_image instead".

(** [a.shape[i]] *)
Definition shape_at {A} (i : nat) (a : ndarray A) : M nat :=
  match nth_error (shape a) i with
  | Some n => ret n
  | None => raise (IndexError "tuple index out of range")
  end.

Section TorchFormat.
(** The elements of the numpy array and of the float tensor, with the
    floating-point operations on them: these are taken as they come. *)
Variables F T : Type.
Variables fmin fmax fsub fdiv : F -> F -> F.
Variable to_float : F -> T.

(** [np.amin(a)] : the least element; an empty array has none. *)
Definition np_amin (a : ndarray F) : M F :=
  match data a with
  | [] => raise (ValueError msg_amin_empty)
  | x :: l => ret (fold_left fmin l x)
  end.

(** [np.ptp(a)] : maximum minus minimum. *)
Definition np_ptp (a : ndarray F) : M F :=
  match data a with
  | [] => raise (ValueError msg_amax_empty)
  | x :: l => ret (fsub (fold_left fmax l x) (fold_left fmin l x))
  end.

(** [a - v] and [a / v] for a scalar [v], and [torch.from_numpy(a).float()]:
    element by element, the shape is kept. *)
Definition sub_scalar (a : ndarray F) (v : F) : ndarray F :=
  mk_ndarray (shape a) (map (fun x => fsub x v) (data a)).
Definition div_scalar (a : ndarray F) (v : F) : ndarray F :=
  mk_ndarray (shape a) (map (fun x => fdiv x v) (data a)).
Definition from_numpy_float (a : ndarray F) : ndarray T :=
  mk_ndarray (shape a) (map to_float (data a)).

Definition torch_format_image (image_data : ndarray F) : M (ndarray T) :=
  (if negb ((ndim image_data =? 3)%Z || (ndim image_data =? 4)%Z)
   then raise (AssertionError msg_image_rank) else ret tt) ;;;
  image_data <-
    (if (ndim image_data =? 3)%Z then expand_dims 1 image_data
     else if (ndim image_data =? 4)%Z then
       c <- shape_at 1 image_data ;;
       if negb (c =? 1)%nat then raise (AssertionError msg_image_channel)
       else ret image_data
     else ret image_data) ;;
  lo <- np_amin image_data ;;
  r <- np_ptp image_data ;;
  ret (from_numpy_float (div_scalar (sub_scalar image_data lo) r)).

Definition torch_format_spectra (spectra : ndarray F) : M (ndarray T) :=
  (if negb ((ndim spectra =? 2)%Z || (ndim spectra =? 3)%Z)
   then raise (AssertionError msg_spectra_rank) else ret tt) ;;;
  spectra <-
    (if (ndim spectra =? 2)%Z then expand_dims 1 spectra
     else if (ndim spectra =? 3)%Z then
       c <- shape_at 1 spectra ;;
       if negb (c =? 1)%nat then raise (AssertionError msg_spectra_channel)
       else ret spectra
     else ret spectra) ;;
  lo <- np_amin spectra ;;
  r <- np_ptp spectra ;;
  ret (from_numpy_float (div_scalar (sub_scalar spectra lo) r)).

Definition torch_format (image_data : ndarray F) : M (ndarray T) :=
  warn msg_deprecated ;;;
  torch_format_image image_data.

(** The elements [d] rescaled by their own minimum and range, as floats. *)
Definition rescale (d : list F) : list T :=
  match d with
  | [] => []
  | x :: l =>
      let lo := fold_left fmin l x in
      let r := fsub (fold_left fmax l x) (fold_left fmin l x) in
      map to_float (map (fun v => fdiv v r) (map (fun v => fsub v lo) d))
  end.

(** The tensor made of an array that has its channel axis: none for an
    empty array, whose minimum [np.amin] refuses to take. *)
Definition normalized (a : ndarray F) : M (ndarray T) :=
  match data a with
  | [] => raise (ValueError msg_amin_empty)
  | _ :: _ => ret (mk_ndarray (shape a) (rescale (data a)))
  end.

End TorchFormat.

(** ** More vocabulary *)

(** [a'] has the elements, the number of samples and the size of [a]. *)
Definition same_content {A} (a a' : ndarray A) : Prop :=
  data a' = data a
  /\ hd_error (shape a') = hd_error (shape a)
  /\ prod (shape a') = prod (shape a).

(** Two lists of values hold the same values. *)
Definition same_values (l1 l2 : list Z) : Prop :=
  forall z, In z l1 <-> In z l2.

(** The chunks that [np.split] makes of the first [k] samples (or of all
    the samples, if there are fewer) of [a], cut into [q] sections. *)
Definition cut_chunks {A} (k q : nat) (a : ndarray A) : list (ndarray A) :=
  match shape a with
  | [] => []
  | n :: rest =>
      map (chunk_of rest (Nat.min k n / q)
             (firstn (Nat.min k n * prod rest) (data a)))
          (seq 0 q)
  end.

(** * Properties *)

(** ** Sorted distinct values *)

Lemma zrange_length a n : length (zrange a n) = n.
Proof. revert a; induction n; intros; simpl; auto. Qed.

Lemma zrange_In a n z : In z (zrange a n) <-> (a <= z < a + Z.of_nat n)%Z.
Proof.
  revert a; induction n as [|n IH]; intros a; simpl.
  - lia.
  - rewrite IH. lia.
Qed.

Lemma insert_unique_In x l z : In z (insert_unique x l) <-> z = x \/ In z l.
Proof.
  induction l as [|y l IH]; simpl.
  - intuition.
  - destruct (x <? y)%Z eqn:Hlt; [simpl; intuition|].
    destruct (x =? y)%Z eqn:Heq.
    + apply Z.eqb_eq in Heq. subst. simpl. intuition.
    + simpl. rewrite IH. intuition.
Qed.

Lemma unique_In a z : In z (unique a) <-> In z (data a).
Proof.
  unfold unique. induction (data a) as [|x l IH]; simpl.
  - tauto.
  - rewrite insert_unique_In, IH. intuition.
Qed.

Lemma insert_unique_sorted x l :
  StronglySorted Z.lt l -> StronglySorted Z.lt (insert_unique x l).
Proof.
  induction 1 as [|y l Hs IH Hall]; simpl.
  - repeat constructor.
  - destruct (x <? y)%Z eqn:Hlt.
    + apply Z.ltb_lt in Hlt. constructor.
      * constructor; assumption.
      * constructor; [assumption|].
        rewrite Forall_forall in *. intros z Hz. specialize (Hall z Hz). lia.
    + destruct (x =? y)%Z eqn:Heq.
      * constructor; assumption.
      * apply Z.ltb_ge in Hlt. apply Z.eqb_neq in Heq.
        constructor; [assumption|].
        rewrite Forall_forall in *. intros z Hz.
        apply insert_unique_In in Hz. destruct Hz as [->|Hz]; [lia|auto].
Qed.

Lemma unique_sorted a : StronglySorted Z.lt (unique a).
Proof.
  unfold unique. induction (data a); simpl.
  - constructor.
  - apply insert_unique_sorted; assumption.
Qed.

(** A strictly increasing list is determined by its elements: if they are
    the integers of [a, b), the list is [zrange a (b - a)]. *)
Lemma sorted_interval_zrange l : forall a b,
  StronglySorted Z.lt l ->
  (forall z, In z l <-> (a <= z < b)%Z) ->
  l = zrange a (Z.to_nat (b - a)).
Proof.
  induction l as [|x l IH]; intros a b Hs Hin.
  - destruct (Z_lt_le_dec a b) as [Hab|Hab].
    + exfalso. apply (proj2 (Hin a)). lia.
    + replace (Z.to_nat (b - a)) with O by lia. reflexivity.
  - inversion Hs as [|? ? Hs' Hall]; subst.
    rewrite Forall_forall in Hall.
    assert (Hx : (a <= x < b)%Z) by (apply Hin; left; reflexivity).
    assert (Ha : In a (x :: l)) by (apply Hin; lia).
    assert (x = a).
    { destruct Ha as [Ha|Ha]; [assumption|]. specialize (Hall a Ha). lia. }
    subst x.
    replace (Z.to_nat (b - a)) with (S (Z.to_nat (b - (a + 1)))) by lia.
    simpl. f_equal. apply IH; [assumption|].
    intros z; split; intros Hz.
    + specialize (Hall z Hz). assert (a <= z < b)%Z by (apply Hin; right; assumption). lia.
    + assert (Hz' : In z (a :: l)) by (apply Hin; lia).
      destruct Hz' as [Hz'|Hz']; [lia|assumption].
Qed.

Lemma fold_min_head l : forall x,
  Forall (Z.lt x) l -> fold_left Z.min l x = x.
Proof.
  induction l as [|y l IH]; intros x Hall; simpl; [reflexivity|].
  inversion Hall; subst. rewrite Z.min_l by lia. apply IH; assumption.
Qed.

Lemma py_min_sorted x l :
  StronglySorted Z.lt (x :: l) -> py_min (x :: l) = ret x.
Proof.
  intros Hs. inversion Hs; subst. simpl. rewrite fold_min_head; auto.
Qed.

Lemma check_increments_cases ps :
  check_increments ps = ret tt \/
  check_increments ps = raise (AssertionError msg_step).
Proof.
  induction ps as [|[i j] ps IH]; simpl; auto.
  destruct (j - i =? 1)%Z; simpl; auto.
Qed.

Lemma check_increments_zrange n : forall a,
  check_increments (combine (a :: zrange (a + 1) n) (zrange (a + 1) n)) = ret tt.
Proof.
  induction n as [|n IH]; intros a; simpl; [reflexivity|].
  replace (a + 1 - a =? 1)%Z with true by (symmetry; apply Z.eqb_eq; lia).
  simpl. apply (IH (a + 1)%Z).
Qed.

Lemma check_increments_ok l : forall x,
  check_increments (combine (x :: l) l) = ret tt ->
  x :: l = zrange x (S (length l)).
Proof.
  induction l as [|y l IH]; intros x H; simpl in *; [reflexivity|].
  destruct (y - x =? 1)%Z eqn:E; simpl in H; [|discriminate].
  apply Z.eqb_eq in E. assert (y = x + 1)%Z by lia. subst y.
  f_equal. apply (IH _ H).
Qed.

(** What the class counter does, by cases on the sorted distinct values. *)
Lemma num_classes_from_labels_eq labels :
  num_classes_from_labels labels =
  match unique labels with
  | [] => raise (ValueError "min() arg is an empty sequence")
  | m :: rest =>
      if negb (m =? 0)%Z then raise (AssertionError msg_start)
      else match check_increments (combine (m :: rest) rest) with
           | (_, Ret _) =>
               let k := Z.of_nat (S (length rest)) in
               ret (if (k =? 2)%Z then (k - 1)%Z else k)
           | (_, Raise e) => raise e
           end
  end.
Proof.
  unfold num_classes_from_labels.
  pose proof (unique_sorted labels) as Hs.
  destruct (unique labels) as [|m rest]; [reflexivity|].
  rewrite (py_min_sorted Hs). cbn [bind ret app].
  destruct (negb (m =? 0)%Z); [reflexivity|].
  cbn [bind ret app tl].
  destruct (check_increments_cases (combine (m :: rest) rest)) as [E|E];
    rewrite E; reflexivity.
Qed.

(** ** The class counter: C2, C3, C10 *)

Lemma unique_nonempty labels :
  data labels <> [] -> exists m rest, unique labels = m :: rest.
Proof.
  intros Hne. destruct (unique labels) as [|m rest] eqn:E; eauto.
  destruct (data labels) as [|x l] eqn:D; [congruence|].
  assert (In x (unique labels)) by (apply unique_In; rewrite D; left; reflexivity).
  rewrite E in *. contradiction.
Qed.

Lemma unique_head_minimum labels m rest :
  unique labels = m :: rest -> is_minimum m (data labels).
Proof.
  intros E. pose proof (unique_sorted labels) as Hs. rewrite E in Hs.
  inversion Hs as [|? ? _ Hall]; subst. rewrite Forall_forall in Hall.
  split.
  - apply unique_In. rewrite E. left; reflexivity.
  - intros z Hz. apply unique_In in Hz. rewrite E in Hz.
    destruct Hz as [->|Hz]; [lia|]. specialize (Hall z Hz). lia.
Qed.

(** C2. When the distinct values of the label array are exactly
    0, 1, ..., k-1 with k >= 1, [num_classes_from_labels] returns (raising
    nothing and warning of nothing) k if k is not 2, and 1 if k is 2. *)
Theorem num_classes_from_labels_contiguous (labels : ndarray Z) (k : Z) :
  (1 <= k)%Z ->
  (forall z, In z (data labels) <-> (0 <= z < k)%Z) ->
  num_classes_from_labels labels = ret (if (k =? 2)%Z then 1%Z else k).
Proof.
  intros Hk Hin.
  assert (E : unique labels = zrange 0 (Z.to_nat (k - 0))).
  { apply sorted_interval_zrange; [apply unique_sorted|].
    intros z. rewrite unique_In. apply Hin. }
  rewrite num_classes_from_labels_eq, E.
  destruct (Z.to_nat (k - 0)) as [|n] eqn:En; [lia|].
  cbn [zrange]. change (negb (0 =? 0)%Z) with false. cbv iota.
  rewrite (check_increments_zrange n 0%Z).
  cbn [ret]. cbv zeta. rewrite zrange_length.
  replace (Z.of_nat (S n)) with k by lia.
  destruct (k =? 2)%Z eqn:E2; [|reflexivity].
  apply Z.eqb_eq in E2. subst k. reflexivity.
Qed.

Lemma num_classes_from_labels_contiguous_witness :
  num_classes_from_labels (mk_ndarray [2; 2]%nat [1; 0; 0; 1]%Z) = ret 1%Z
  /\ num_classes_from_labels (mk_ndarray [5]%nat [2; 0; 1; 2; 0]%Z) = ret 3%Z.
Proof.
  split.
  - apply (@num_classes_from_labels_contiguous
             (mk_ndarray [2; 2]%nat [1; 0; 0; 1]%Z) 2%Z); [lia|].
    intros z; simpl; lia.
  - apply (@num_classes_from_labels_contiguous
             (mk_ndarray [5]%nat [2; 0; 1; 2; 0]%Z) 3%Z); [lia|].
    intros z; simpl; lia.
Defined.

(** C3, as stated, fails on an empty label array: it has no value at all, so
    0 is not its minimum, but what is raised is the [ValueError] of [min]
    on an empty sequence and not an [AssertionError]. *)
Lemma num_classes_from_labels_empty :
  let labels := mk_ndarray [0%nat] (@nil Z) in
  (~ is_minimum 0 (data labels) \/ ~ consecutive (data labels))
  /\ (exists msg, num_classes_from_labels labels = ([], Raise (ValueError msg)))
  /\ ~ (exists w msg,
          num_classes_from_labels labels = (w, Raise (AssertionError msg))).
Proof.
  cbv zeta. split; [|split].
  - left. intros [H _]. exact H.
  - eexists. reflexivity.
  - intros (w & msg & H). discriminate H.
Qed.

(** C3 (amended). For a label array that is not empty: if 0 is not the least
    of its values, or its values are not consecutive integers,
    [num_classes_from_labels] raises an [AssertionError] and returns
    nothing. *)
Theorem num_classes_from_labels_invalid (labels : ndarray Z) :
  data labels <> [] ->
  ~ is_minimum 0 (data labels) \/ ~ consecutive (data labels) ->
  exists msg,
    num_classes_from_labels labels = ([], Raise (AssertionError msg)).
Proof.
  intros Hne Hbad.
  destruct (unique_nonempty labels Hne) as (m & rest & E).
  pose proof (unique_head_minimum labels E) as Hmin.
  rewrite num_classes_from_labels_eq, E.
  destruct (m =? 0)%Z eqn:Em; cbn [negb]; [|eexists; reflexivity].
  apply Z.eqb_eq in Em. subst m.
  destruct (check_increments_cases (combine (0%Z :: rest) rest)) as [Ec|Ec];
    rewrite Ec; [|eexists; reflexivity].
  exfalso. destruct Hbad as [Hbad|Hbad]; [exact (Hbad Hmin)|].
  apply Hbad. intros x y z Hx Hy Hz.
  apply check_increments_ok in Ec.
  rewrite <- unique_In in *. rewrite E, Ec in *.
  rewrite zrange_In in *. lia.
Qed.

Lemma num_classes_from_labels_invalid_witness :
  (exists msg, num_classes_from_labels (mk_ndarray [3]%nat [1; 2; 3]%Z)
               = ([], Raise (AssertionError msg)))
  /\ (exists msg, num_classes_from_labels (mk_ndarray [3]%nat [0; 2; 0]%Z)
                  = ([], Raise (AssertionError msg))).
Proof.
  split.
  - apply (@num_classes_from_labels_invalid (mk_ndarray [3]%nat [1; 2; 3]%Z)).
    + discriminate.
    + left. intros [H _]. simpl in H. lia.
  - apply (@num_classes_from_labels_invalid (mk_ndarray [3]%nat [0; 2; 0]%Z)).
    + discriminate.
    + right. intros H. specialize (H 0%Z 2%Z 1%Z). simpl in H. lia.
Defined.

(** C10. Whenever [num_classes_from_labels] returns, the class count is at
    least 1 and is never 2: two distinct values give 1. *)
Theorem num_classes_from_labels_range (labels : ndarray Z) w (n : Z) :
  num_classes_from_labels labels = (w, Ret n) ->
  (1 <= n)%Z /\ n <> 2%Z /\ (length (unique labels) = 2%nat -> n = 1%Z).
Proof.
  rewrite num_classes_from_labels_eq.
  destruct (unique labels) as [|m rest]; [discriminate|].
  destruct (negb (m =? 0)%Z); [discriminate|].
  destruct (check_increments (combine (m :: rest) rest)) as [w' [[]|e]];
    [|discriminate].
  cbv zeta. unfold ret. simpl length.
  remember (Z.of_nat (S (length rest))) as k eqn:Ek.
  destruct (k =? 2)%Z eqn:E2; intros H; injection H as _ Hn.
  - apply Z.eqb_eq in E2. lia.
  - apply Z.eqb_neq in E2. lia.
Qed.

Lemma num_classes_from_labels_range_witness :
  (1 <= 1)%Z /\ 1%Z <> 2%Z /\
  (length (unique (mk_ndarray [4]%nat [0; 1; 1; 0]%Z)) = 2%nat -> 1%Z = 1%Z).
Proof.
  apply (@num_classes_from_labels_range
           (mk_ndarray [4]%nat [0; 1; 1; 0]%Z) [] 1%Z).
  reflexivity.
Defined.

(** ** The rank normalisers: C4, C5, C8 *)

Lemma bind_Ret {A B} w (a : A) (f : A -> M B) :
  bind (w, Ret a) f = (w ++ fst (f a), snd (f a)).
Proof. unfold bind. destruct (f a); reflexivity. Qed.

Lemma ndim_pos_shape {A} (a : ndarray A) :
  (1 <= ndim a)%Z -> exists n rest, shape a = n :: rest.
Proof.
  unfold ndim. destruct (shape a) as [|n rest]; simpl; [lia|eauto].
Qed.

Lemma when_newaxis {A} r msg (a : ndarray A) :
  (1 <= r)%Z ->
  when_ (ndim a =? r)%Z msg getitem_colon_newaxis a
  = (notice r msg a, Ret (expand_at_rank r a)).
Proof.
  intros Hr. unfold when_, notice, expand_at_rank.
  destruct (ndim a =? r)%Z eqn:E; [|reflexivity].
  apply Z.eqb_eq in E.
  destruct (@ndim_pos_shape A a) as (n & rest & Hs); [lia|].
  unfold getitem_colon_newaxis, add_channel. rewrite Hs. reflexivity.
Qed.

Lemma when_expand_dims {A} r msg (a : ndarray A) :
  (1 <= r)%Z ->
  when_ (ndim a =? r)%Z msg (expand_dims 1) a
  = (notice r msg a, Ret (expand_at_rank r a)).
Proof.
  intros Hr. unfold when_, notice, expand_at_rank.
  destruct (ndim a =? r)%Z eqn:E; [|reflexivity].
  apply Z.eqb_eq in E.
  destruct (@ndim_pos_shape A a) as (n & rest & Hs); [lia|].
  unfold expand_dims, add_channel. rewrite Hs. reflexivity.
Qed.

Lemma when_newaxis_label {A} nc msg (a : ndarray A) :
  when_ ((nc =? 1)%Z && (ndim a =? 3)%Z) msg getitem_colon_newaxis a
  = (notice_label nc msg a, Ret (expand_label nc a)).
Proof.
  unfold notice_label, expand_label.
  destruct (nc =? 1)%Z; cbn [andb]; [|reflexivity].
  apply when_newaxis. lia.
Qed.

Lemma ndim_add_channel {A} (a : ndarray A) :
  (1 <= ndim a)%Z -> ndim (add_channel a) = (ndim a + 1)%Z.
Proof.
  intros H. destruct (ndim_pos_shape a H) as (n & rest & Hs).
  unfold ndim, add_channel, insert_axis. simpl. rewrite Hs. simpl. lia.
Qed.

Lemma ndim_expand_at_rank {A} r (a : ndarray A) :
  (1 <= r)%Z ->
  ndim (expand_at_rank r a) = if (ndim a =? r)%Z then (r + 1)%Z else ndim a.
Proof.
  intros Hr. unfold expand_at_rank.
  destruct (ndim a =? r)%Z eqn:E; [|reflexivity].
  apply Z.eqb_eq in E. rewrite ndim_add_channel; lia.
Qed.

Lemma data_expand_at_rank {A} r (a : ndarray A) :
  data (expand_at_rank r a) = data a.
Proof. unfold expand_at_rank. destruct (ndim a =? r)%Z; reflexivity. Qed.

Lemma rank3_shape {A} (a : ndarray A) :
  ndim a = 3%Z -> exists n h v, shape a = [n; h; v].
Proof.
  unfold ndim. destruct (shape a) as [|n [|h [|v [|? ?]]]]; simpl; try lia.
  eauto.
Qed.

(** A rank-3 array gains exactly one axis, of size 1, at position 1; its
    other axes and its elements stay as they are. *)
Lemma expand_rank3 {A} (a : ndarray A) :
  ndim a = 3%Z ->
  exists n h v, shape a = [n; h; v]
    /\ shape (expand_at_rank 3 a) = [n; 1%nat; h; v]
    /\ data (expand_at_rank 3 a) = data a.
Proof.
  intros H. destruct (rank3_shape a H) as (n & h & v & Hs).
  exists n, h, v. unfold expand_at_rank. rewrite H. simpl.
  unfold insert_axis. rewrite Hs. auto.
Qed.

Lemma expand_at_rank_other {A} r (a : ndarray A) :
  ndim a <> r -> expand_at_rank r a = a.
Proof.
  intros H. unfold expand_at_rank. apply Z.eqb_neq in H. rewrite H. reflexivity.
Qed.

Lemma expand_at_rank_idem {A} r (a : ndarray A) :
  (1 <= r)%Z -> expand_at_rank r (expand_at_rank r a) = expand_at_rank r a.
Proof.
  intros Hr. apply expand_at_rank_other.
  rewrite ndim_expand_at_rank by assumption.
  destruct (ndim a =? r)%Z eqn:E; [lia|]. apply Z.eqb_neq in E. assumption.
Qed.

Lemma expand_label_idem {A} nc (a : ndarray A) :
  expand_label nc (expand_label nc a) = expand_label nc a.
Proof.
  unfold expand_label. destruct (nc =? 1)%Z; [|reflexivity].
  apply expand_at_rank_idem. lia.
Qed.

Section NormaliserFacts.
Variables A B : Type.
Implicit Types (X Xt : ndarray A) (y yt : ndarray B).

(** [check_image_dims] never raises; its warnings and its four arrays. *)
Lemma check_image_dims_eq X y Xt yt nc :
  check_image_dims X y Xt yt nc =
  (notice 3 warn_train_images X ++ notice 3 warn_test_images Xt
     ++ notice_label nc warn_train_labels y
     ++ notice_label nc warn_test_labels yt,
   Ret (expand_at_rank 3 X, expand_label nc y,
        expand_at_rank 3 Xt, expand_label nc yt)).
Proof.
  unfold check_image_dims.
  rewrite when_newaxis, bind_Ret by lia.
  rewrite when_newaxis, bind_Ret by lia.
  rewrite when_newaxis_label, bind_Ret.
  rewrite when_newaxis_label, bind_Ret.
  cbn [ret fst snd]. rewrite app_nil_r. reflexivity.
Qed.

Lemma check_signal_dims_eq X y Xt yt :
  check_signal_dims X y Xt yt =
  match (ndim X ?= ndim y)%Z with
  | Gt => (notice 3 warn_train_images X ++ notice 3 warn_test_images Xt
             ++ notice 2 warn_train_spectra y
             ++ notice 2 warn_test_spectra yt,
           Ret (expand_at_rank 3 X, expand_at_rank 2 y,
                expand_at_rank 3 Xt, expand_at_rank 2 yt))
  | Lt => (notice 2 warn_train_images X ++ notice 2 warn_test_images Xt
             ++ notice 3 warn_train_spectra y
             ++ notice 3 warn_test_spectra yt,
           Ret (expand_at_rank 2 X, expand_at_rank 3 y,
                expand_at_rank 2 Xt, expand_at_rank 3 yt))
  | Eq => ([], Ret (X, y, Xt, yt))
  end.
Proof.
  unfold check_signal_dims, Z.gtb, Z.ltb.
  destruct (ndim X ?= ndim y)%Z.
  - reflexivity.
  - repeat (rewrite when_expand_dims, bind_Ret by lia).
    cbn [ret fst snd]. rewrite app_nil_r. reflexivity.
  - repeat (rewrite when_expand_dims, bind_Ret by lia).
    cbn [ret fst snd]. rewrite app_nil_r. reflexivity.
Qed.

End NormaliserFacts.

Lemma expand_at_rank_channel {A} r (a : ndarray A) :
  (1 <= r)%Z -> channel_added_at r a (expand_at_rank r a).
Proof.
  intros Hr. split.
  - intros E. pose proof (ndim_expand_at_rank a Hr) as Hn.
    unfold expand_at_rank in *. apply Z.eqb_eq in E. rewrite E in *. auto.
  - apply expand_at_rank_other.
Qed.

Lemma add_channel_neq {A} (a : ndarray A) : add_channel a <> a.
Proof.
  intros H. apply (f_equal (fun x => length (shape x))) in H.
  unfold add_channel, insert_axis in H. simpl in H.
  destruct (shape a); simpl in H; lia.
Qed.

Lemma notice_expanded {A} r msg (a : ndarray A) :
  (1 <= r)%Z -> notice r msg (expand_at_rank r a) = [].
Proof.
  intros Hr. unfold notice. rewrite ndim_expand_at_rank by assumption.
  destruct (ndim a =? r)%Z eqn:E.
  - replace (r + 1 =? r)%Z with false; [reflexivity|].
    symmetry. apply Z.eqb_neq. lia.
  - rewrite E. reflexivity.
Qed.

Lemma notice_label_expanded {A} nc msg (a : ndarray A) :
  notice_label nc msg (expand_label nc a) = [].
Proof.
  unfold notice_label, expand_label. destruct (nc =? 1)%Z; [|reflexivity].
  apply notice_expanded. lia.
Qed.

Section NormaliserClaims.
Variables A B : Type.
Implicit Types (X Xt : ndarray A) (y yt : ndarray B).

(** C4. [check_image_dims] always returns four arrays.  A train or test
    data array of rank 3 gets a unit axis at position 1 and becomes rank 4,
    whatever the class count; any other data array is returned as it is.
    A label array gets the axis exactly when the class count is 1 and its
    rank is 3; otherwise it is returned as it is, so with more than one
    class its rank does not change. *)
Theorem check_image_dims_rule X y Xt yt (num_classes : Z) :
  exists w X' y' Xt' yt',
    check_image_dims X y Xt yt num_classes = (w, Ret (X', y', Xt', yt'))
    /\ channel_added_at 3 X X' /\ channel_added_at 3 Xt Xt'
    /\ (y' = add_channel y <-> num_classes = 1%Z /\ ndim y = 3%Z)
    /\ (yt' = add_channel yt <-> num_classes = 1%Z /\ ndim yt = 3%Z)
    /\ (y' = add_channel y /\ ndim y' = 4%Z \/ y' = y)
    /\ (yt' = add_channel yt /\ ndim yt' = 4%Z \/ yt' = yt)
    /\ ((1 < num_classes)%Z -> y' = y /\ yt' = yt).
Proof.
  assert (Hlabel : forall a : ndarray B,
    (expand_label num_classes a = add_channel a
       <-> num_classes = 1%Z /\ ndim a = 3%Z)
    /\ (expand_label num_classes a = add_channel a
          /\ ndim (expand_label num_classes a) = 4%Z
        \/ expand_label num_classes a = a)
    /\ ((1 < num_classes)%Z -> expand_label num_classes a = a)).
  { intros a. unfold expand_label.
    destruct (num_classes =? 1)%Z eqn:En.
    - apply Z.eqb_eq in En.
      destruct (@expand_at_rank_channel B 3%Z a ltac:(lia)) as [H3 Hn3].
      destruct (Z.eq_dec (ndim a) 3) as [E|E].
      + destruct (H3 E) as [Hc Hr]. rewrite Hc in *.
        split; [tauto|]. split; [left; auto|lia].
      + rewrite (Hn3 E).
        split; [|split; [right; reflexivity|reflexivity]].
        split; [|tauto].
        intros H. symmetry in H. destruct (add_channel_neq H).
    - apply Z.eqb_neq in En.
      split; [|split; [right; reflexivity|reflexivity]].
      split; [|tauto].
      intros H. symmetry in H. destruct (add_channel_neq H). }
  exists (notice 3 warn_train_images X ++ notice 3 warn_test_images Xt
            ++ notice_label num_classes warn_train_labels y
            ++ notice_label num_classes warn_test_labels yt),
    (expand_at_rank 3 X), (expand_label num_classes y),
    (expand_at_rank 3 Xt), (expand_label num_classes yt).
  split; [apply check_image_dims_eq|].
  split; [apply expand_at_rank_channel; lia|].
  split; [apply expand_at_rank_channel; lia|].
  destruct (Hlabel y) as (Hy1 & Hy2 & Hy3).
  destruct (Hlabel yt) as (Ht1 & Ht2 & Ht3).
  split; [exact Hy1|]. split; [exact Ht1|].
  split; [exact Hy2|]. split; [exact Ht2|].
  intros H. split; [apply Hy3|apply Ht3]; exact H.
Qed.

(** C5. [check_signal_dims] looks only at the ranks of the two training
    arrays to choose its branch.  When the data rank is the larger, each of
    the two data arrays of rank 3 and each of the two label arrays of rank
    2 gets a unit axis at position 1; when it is the smaller, the data
    arrays of rank 2 and the label arrays of rank 3 get it; when the two
    ranks are equal the four arrays come back as they are, without any
    warning.  In the first two cases every array is judged on its own
    rank, the test arrays too. *)
Theorem check_signal_dims_rule X y Xt yt :
  exists w X' y' Xt' yt',
    check_signal_dims X y Xt yt = (w, Ret (X', y', Xt', yt'))
    /\ ((ndim X > ndim y)%Z ->
          channel_added_at 3 X X' /\ channel_added_at 3 Xt Xt'
          /\ channel_added_at 2 y y' /\ channel_added_at 2 yt yt')
    /\ ((ndim X < ndim y)%Z ->
          channel_added_at 2 X X' /\ channel_added_at 2 Xt Xt'
          /\ channel_added_at 3 y y' /\ channel_added_at 3 yt yt')
    /\ (ndim X = ndim y ->
          w = [] /\ X' = X /\ y' = y /\ Xt' = Xt /\ yt' = yt).
Proof.
  pose proof (check_signal_dims_eq X y Xt yt) as E.
  destruct (ndim X ?= ndim y)%Z eqn:C.
  - apply Z.compare_eq in C.
    do 5 eexists. split; [exact E|].
    repeat split; auto; lia.
  - rewrite Z.compare_lt_iff in C.
    do 5 eexists. split; [exact E|].
    split; [lia|]. split; [|lia].
    intros _. repeat split; apply expand_at_rank_channel; lia.
  - rewrite Z.compare_gt_iff in C.
    do 5 eexists. split; [exact E|].
    split; [|split; lia].
    intros _. repeat split; apply expand_at_rank_channel; lia.
Qed.

(** C8. On four arrays of rank 4 [check_image_dims] returns them as they
    are and warns of nothing, so running it again on its result equals
    running it once.  In general, running it on its own result changes
    nothing.  A data array of rank 3, of shape (n, h, v), comes back with
    shape (n, 1, h, v) and the same elements. *)
Theorem check_image_dims_rank4_noop X y Xt yt (num_classes : Z) :
  (ndim X = 4%Z -> ndim y = 4%Z -> ndim Xt = 4%Z -> ndim yt = 4%Z ->
     check_image_dims X y Xt yt num_classes = ret (X, y, Xt, yt)
     /\ ('(a, b, c, d) <- check_image_dims X y Xt yt num_classes ;;
         check_image_dims a b c d num_classes)
        = check_image_dims X y Xt yt num_classes)
  /\ exists w X' y' Xt' yt',
       check_image_dims X y Xt yt num_classes = (w, Ret (X', y', Xt', yt'))
       /\ check_image_dims X' y' Xt' yt' num_classes
          = ret (X', y', Xt', yt')
       /\ (ndim X = 3%Z -> exists n h v, shape X = [n; h; v]
             /\ shape X' = [n; 1%nat; h; v] /\ data X' = data X)
       /\ (ndim Xt = 3%Z -> exists n h v, shape Xt = [n; h; v]
             /\ shape Xt' = [n; 1%nat; h; v] /\ data Xt' = data Xt).
Proof.
  assert (Hagain : forall X y Xt yt,
    check_image_dims (expand_at_rank 3 X) (expand_label num_classes y)
      (expand_at_rank 3 Xt) (expand_label num_classes yt) num_classes
    = ret (expand_at_rank 3 X, expand_label num_classes y,
           expand_at_rank 3 Xt, expand_label num_classes yt)).
  { intros. rewrite check_image_dims_eq.
    rewrite !notice_expanded, !notice_label_expanded by lia.
    rewrite !expand_at_rank_idem, !expand_label_idem by lia. reflexivity. }
  split.
  - intros HX Hy HXt Hyt.
    assert (E : check_image_dims X y Xt yt num_classes = ret (X, y, Xt, yt)).
    { rewrite check_image_dims_eq. unfold notice_label, expand_label, notice.
      rewrite !expand_at_rank_other by lia.
      rewrite HX, Hy, HXt, Hyt. simpl.
      destruct (num_classes =? 1)%Z; reflexivity. }
    split; [exact E|].
    rewrite E. unfold ret at 1. rewrite bind_Ret. rewrite E. reflexivity.
  - do 5 eexists. split; [apply check_image_dims_eq|].
    split; [apply Hagain|].
    split; apply expand_rank3.
Qed.

End NormaliserClaims.

Lemma check_image_dims_rule_witness :
  exists w X' y' Xt' yt',
    check_image_dims (arange [2; 3; 3]%nat) (full [2; 3; 3]%nat 0)
      (arange [1; 1; 3; 3]%nat) (full [1; 3; 3]%nat 0) 4
    = (w, Ret (X', y', Xt', yt'))
    /\ X' = add_channel (arange [2; 3; 3]%nat)
    /\ y' = full [2; 3; 3]%nat 0 /\ yt' = full [1; 3; 3]%nat 0.
Proof.
  destruct (check_image_dims_rule (arange [2; 3; 3]%nat) (full [2; 3; 3]%nat 0)
              (arange [1; 1; 3; 3]%nat) (full [1; 3; 3]%nat 0) 4)
    as (w & X' & y' & Xt' & yt' & E & [HX _] & _ & _ & _ & _ & _ & Hy).
  exists w, X', y', Xt', yt'.
  destruct (Hy ltac:(lia)) as [Hy1 Hy2].
  destruct (HX eq_refl) as [HX1 _].
  auto.
Defined.

Lemma check_signal_dims_rule_witness :
  exists w X' y' Xt' yt',
    check_signal_dims (arange [2; 3; 3]%nat) (full [2; 4]%nat 0)
      (arange [1; 3; 3]%nat) (full [1; 1; 4]%nat 0)
    = (w, Ret (X', y', Xt', yt'))
    /\ X' = add_channel (arange [2; 3; 3]%nat)
    /\ y' = add_channel (full [2; 4]%nat 0)
    /\ Xt' = add_channel (arange [1; 3; 3]%nat)
    /\ yt' = full [1; 1; 4]%nat 0.
Proof.
  destruct (check_signal_dims_rule (arange [2; 3; 3]%nat) (full [2; 4]%nat 0)
              (arange [1; 3; 3]%nat) (full [1; 1; 4]%nat 0))
    as (w & X' & y' & Xt' & yt' & E & Hgt & _ & _).
  exists w, X', y', Xt', yt'.
  destruct (Hgt ltac:(vm_compute; reflexivity))
    as ([HX _] & [HXt _] & [Hy _] & [_ Hyt]).
  destruct (HX eq_refl) as [-> _]. destruct (HXt eq_refl) as [-> _].
  destruct (Hy eq_refl) as [-> _].
  rewrite (Hyt ltac:(vm_compute; discriminate)) in *.
  repeat split; try reflexivity. exact E.
Defined.

Lemma check_image_dims_rank4_noop_witness :
  check_image_dims (arange [2; 1; 3; 3]%nat) (full [2; 1; 3; 3]%nat 1)
    (arange [1; 1; 3; 3]%nat) (full [1; 1; 3; 3]%nat 1) 1
  = ret (arange [2; 1; 3; 3]%nat, full [2; 1; 3; 3]%nat 1,
         arange [1; 1; 3; 3]%nat, full [1; 1; 3; 3]%nat 1).
Proof.
  apply (proj1 (check_image_dims_rank4_noop (arange [2; 1; 3; 3]%nat)
                  (full [2; 1; 3; 3]%nat 1) (arange [1; 1; 3; 3]%nat)
                  (full [1; 1; 3; 3]%nat 1) 1)); reflexivity.
Defined.

(** ** The batcher: C1, C6, C7 *)

Lemma bind_ret {A B} (a : A) (f : A -> M B) : bind (ret a) f = f a.
Proof. unfold bind, ret. destruct (f a). reflexivity. Qed.

Lemma bind_raise {A B} e (f : A -> M B) : bind (raise e) f = raise e.
Proof. reflexivity. Qed.

Lemma slice0_chunk {A} (a : ndarray A) N rest each i :
  shape a = N :: rest -> ((i + 1) * each <= N)%nat ->
  slice0 (i * each) ((i + 1) * each) a = chunk_of rest each (data a) i.
Proof.
  intros Hs Hle. unfold slice0, chunk_of. rewrite Hs.
  rewrite (Nat.min_l _ N) by assumption.
  rewrite Nat.min_l by lia.
  replace ((i + 1) * each - i * each)%nat with each by lia.
  rewrite Nat.mul_assoc. reflexivity.
Qed.

Lemma getitem_upto_ret {A} (a : ndarray A) N rest k :
  shape a = N :: rest -> (k <= N)%nat ->
  getitem_upto (Z.of_nat k) a
  = ret (mk_ndarray (k :: rest) (firstn (k * prod rest) (data a))).
Proof.
  intros Hs Hle. unfold getitem_upto, slice_stop, slice0. rewrite Hs.
  replace (Z.of_nat k <? 0)%Z with false by (symmetry; apply Z.ltb_ge; lia).
  rewrite Nat2Z.id. rewrite !(Nat.min_l k N) by assumption.
  cbn [Nat.min Nat.mul skipn]. rewrite Nat.sub_0_r. reflexivity.
Qed.

Lemma np_split_ret {A} (a : ndarray A) N rest q :
  shape a = N :: rest -> (0 < q)%nat -> (N mod q = 0)%nat ->
  np_split a (Z.of_nat q)
  = ret (map (chunk_of rest (N / q) (data a)) (seq 0 q)).
Proof.
  intros Hs Hq Hmod. unfold np_split, shape0. rewrite Hs, bind_ret.
  unfold np_mod.
  replace (Z.of_nat q =? 0)%Z with false by (symmetry; apply Z.eqb_neq; lia).
  rewrite <- Nat2Z.inj_mod, Hmod. cbn [Z.of_nat Z.eqb negb].
  replace (Z.of_nat q <=? 0)%Z with false by (symmetry; apply Z.leb_gt; lia).
  rewrite Nat2Z.id. apply (f_equal ret). apply map_ext_in.
  intros i Hi. apply in_seq in Hi.
  apply slice0_chunk with (N := N); [exact Hs|].
  apply Nat.Div0.div_exact in Hmod. nia.
Qed.

(** Splitting into no section, or into a negative number of sections, is
    refused. *)
Lemma np_split_no_section {A} (a : ndarray A) (q : Z) :
  (q <= 0)%Z -> exists e, np_split a q = raise e.
Proof.
  intros Hq. unfold np_split, shape0.
  destruct (shape a) as [|N rest]; [rewrite bind_raise; eauto|].
  rewrite bind_ret.
  destruct (negb (np_mod (Z.of_nat N) q =? 0)%Z); [eauto|].
  replace (q <=? 0)%Z with true by (symmetry; apply Z.leb_le; lia). eauto.
Qed.

Lemma np_split_cases {A} (a : ndarray A) (q : Z) :
  (exists l, np_split a q = ret l) \/ (exists e, np_split a q = raise e).
Proof.
  unfold np_split, shape0.
  destruct (shape a) as [|N rest]; [rewrite bind_raise; eauto|].
  rewrite bind_ret.
  destruct (negb (np_mod (Z.of_nat N) q =? 0)%Z); [eauto|].
  destruct (q <=? 0)%Z; eauto.
Qed.

Lemma getitem_upto_cases {A} (a : ndarray A) (k : Z) :
  (exists c, getitem_upto k a = ret c) \/ (exists e, getitem_upto k a = raise e).
Proof. unfold getitem_upto. destruct (shape a); eauto. Qed.

Lemma floordiv_nat (n b : nat) :
  (0 < b)%nat -> fst (np_divmod (Z.of_nat n) (Z.of_nat b)) = Z.of_nat (n / b).
Proof.
  intros Hb. unfold np_divmod, np_floordiv. cbn [fst].
  replace (Z.of_nat b =? 0)%Z with false by (symmetry; apply Z.eqb_neq; lia).
  symmetry. apply Nat2Z.inj_div.
Qed.

Lemma chunk_of_firstn {A} rest each k (d : list A) i :
  ((i + 1) * each <= k)%nat ->
  chunk_of rest each (firstn (k * prod rest) d) i = chunk_of rest each d i.
Proof.
  intros Hle. unfold chunk_of. f_equal.
  rewrite skipn_firstn_comm, firstn_firstn. f_equal. nia.
Qed.

(** Truncating to whole batches and splitting gives [batches]. *)
Lemma cut_and_split {A} (a : ndarray A) n rest b :
  shape a = n :: rest -> (0 < b)%nat -> (b <= n)%nat ->
  exists cut,
    getitem_upto (Z.of_nat (n / b) * Z.of_nat b) a = ret cut
    /\ shape cut = (n / b * b)%nat :: rest
    /\ np_split cut (Z.of_nat (n / b)) = ret (batches b a).
Proof.
  intros Hs Hb Hle.
  assert (Hq : (0 < n / b)%nat) by (apply Nat.div_str_pos; lia).
  assert (Hk : (n / b * b <= n)%nat)
    by (rewrite Nat.mul_comm; apply Nat.Div0.mul_div_le).
  eexists. rewrite <- Nat2Z.inj_mul. split; [apply (getitem_upto_ret a Hs Hk)|].
  split; [reflexivity|].
  erewrite np_split_ret;
    [|reflexivity|assumption|rewrite Nat.mul_comm; apply Nat.Div0.mod_mul].
  unfold batches. rewrite Hs. cbn [data].
  replace (n / b * b / (n / b))%nat with b
    by (rewrite (Nat.mul_comm (n / b) b), Nat.div_mul; lia).
  apply (f_equal ret).
  apply map_ext_in. intros i Hi. apply in_seq in Hi.
  apply chunk_of_firstn. nia.
Qed.

Lemma batches_length {A} (a : ndarray A) n rest b :
  shape a = n :: rest -> length (batches b a) = (n / b)%nat.
Proof.
  intros Hs. unfold batches. rewrite Hs, length_map, length_seq. reflexivity.
Qed.

Lemma batches_shape {A} (a : ndarray A) n rest b :
  shape a = n :: rest ->
  Forall (fun c => shape c = b :: rest) (batches b a).
Proof.
  intros Hs. unfold batches. rewrite Hs. apply Forall_forall.
  intros c Hc. apply in_map_iff in Hc. destruct Hc as (i & <- & _). reflexivity.
Qed.

Lemma batches_wf {A} (a : ndarray A) n rest b :
  shape a = n :: rest -> (0 < b)%nat -> wf a -> Forall wf (batches b a).
Proof.
  intros Hs Hb Hwf. unfold batches. rewrite Hs. apply Forall_forall.
  intros c Hc. apply in_map_iff in Hc. destruct Hc as (i & <- & Hi).
  apply in_seq in Hi. unfold wf, chunk_of in *. rewrite Hs in Hwf.
  cbn [shape data prod fold_right] in *. fold (prod rest) in *.
  rewrite length_firstn, length_skipn, Hwf.
  assert (((i + 1) * b <= n)%nat).
  { pose proof (Nat.Div0.mul_div_le n b). nia. }
  nia.
Qed.

Lemma batches_nth {A} (a : ndarray A) n rest b i :
  shape a = n :: rest -> (i < n / b)%nat ->
  nth_error (batches b a) i = Some (chunk_of rest b (data a) i).
Proof.
  intros Hs Hi. unfold batches. rewrite Hs.
  rewrite nth_error_map, nth_error_nth' with (d := O) by (rewrite length_seq; lia).
  rewrite seq_nth by assumption. reflexivity.
Qed.


Lemma firstn_plus {A} (l : list A) : forall a b,
  firstn (a + b) l = firstn a l ++ firstn b (skipn a l).
Proof.
  induction l as [|x l IH]; intros a b.
  - rewrite skipn_nil, !firstn_nil. reflexivity.
  - destruct a as [|a]; simpl; [reflexivity|]. rewrite IH. reflexivity.
Qed.

Lemma concat_chunks {A} rest each (d : list A) q : forall s,
  concat_axis0 rest (map (chunk_of rest each d) (seq s q))
  = Some ((q * each)%nat,
          firstn (q * (each * prod rest)) (skipn (s * (each * prod rest)) d)).
Proof.
  induction q as [|q IH]; intros s; [reflexivity|].
  cbn [seq map concat_axis0]. rewrite IH.
  cbn [chunk_of shape data].
  destruct (list_eq_dec Nat.eq_dec rest rest); [|congruence].
  apply f_equal. apply f_equal2; [reflexivity|].
  replace (S q * (each * prod rest))%nat
    with (each * prod rest + q * (each * prod rest))%nat by lia.
  rewrite firstn_plus, skipn_skipn. reflexivity.
Qed.

(** The chunks of a split, put back together, are the array itself. *)
Lemma np_split_concatenate {A} (a : ndarray A) (q : Z) w l :
  np_split a q = (w, Ret l) ->
  (length (data a) <= prod (shape a))%nat ->
  concatenate l = Some a.
Proof.
  intros H Hlen. pose proof H as H0. unfold np_split, shape0 in H0.
  destruct (shape a) as [|N rest] eqn:Hs; [discriminate|].
  rewrite bind_ret in H0.
  destruct (np_mod (Z.of_nat N) q =? 0)%Z eqn:Hmod; [|discriminate].
  destruct (q <=? 0)%Z eqn:Hq; [discriminate|]. clear H0.
  apply Z.leb_gt in Hq. apply Z.eqb_eq in Hmod.
  unfold np_mod in Hmod.
  replace (q =? 0)%Z with false in Hmod by (symmetry; apply Z.eqb_neq; lia).
  pose proof (@np_split_ret A a N rest (Z.to_nat q) Hs ltac:(lia)) as E.
  rewrite Z2Nat.id in E by lia.
  assert (Hm : (N mod Z.to_nat q = 0)%nat).
  { apply Nat2Z.inj. rewrite Nat2Z.inj_mod, Z2Nat.id by lia. exact Hmod. }
  specialize (E Hm). clear Hmod.
  assert (Hl : l = map (chunk_of rest (N / Z.to_nat q) (data a))
                       (seq 0 (Z.to_nat q))).
  { rewrite E in H. unfold ret in H. congruence. }
  subst l. unfold concatenate.
  destruct (Z.to_nat q) as [|q'] eqn:Eq; [lia|].
  cbn [seq map chunk_of shape]. fold (chunk_of rest (N / S q') (data a) 0).
  change (chunk_of rest (N / S q') (data a) 0
            :: map (chunk_of rest (N / S q') (data a)) (seq 1 q'))
    with (map (chunk_of rest (N / S q') (data a)) (seq 0 (S q'))).
  rewrite concat_chunks. cbn [Nat.mul skipn].
  apply Nat.Div0.div_exact in Hm.
  replace (N / S q' + q' * (N / S q'))%nat with N by lia.
  rewrite firstn_all2.
  - destruct a as [sh d]. cbn [shape data] in *. subst sh. reflexivity.
  - cbn [prod fold_right] in Hlen. fold (prod rest) in Hlen. nia.
Qed.

Lemma getitem_upto_inv {A} (a : ndarray A) (k : Z) w c :
  getitem_upto k a = (w, Ret c) ->
  exists n rest, shape a = n :: rest
    /\ c = slice0 0 (slice_stop n k) a
    /\ shape c = Nat.min (slice_stop n k) n :: rest
    /\ (length (data c) <= prod (shape c))%nat.
Proof.
  unfold getitem_upto. destruct (shape a) as [|n rest] eqn:Hs; [discriminate|].
  intros H. injection H as _ <-. exists n, rest.
  split; [reflexivity|]. split; [reflexivity|].
  unfold slice0. rewrite Hs. cbn [shape data prod fold_right Nat.min].
  rewrite Nat.sub_0_r. split; [reflexivity|].
  fold (prod rest). apply firstn_le_length.
Qed.

Lemma np_floordiv_small (n : nat) (b : Z) :
  (Z.of_nat n < b)%Z -> fst (np_divmod (Z.of_nat n) b) = 0%Z.
Proof.
  intros H. unfold np_divmod, np_floordiv. cbn [fst].
  destruct (b =? 0)%Z; [reflexivity|]. apply Z.div_small. lia.
Qed.

(** Truncating to no batch and splitting into no section raises. *)
Lemma cut_and_split_nothing {A B} (a : ndarray A) n rest (b : Z)
    (k : list (ndarray A) -> M B) :
  shape a = n :: rest ->
  (cut <- getitem_upto (0 * b) a ;; l <- np_split cut 0 ;; k l)
  = raise (ValueError msg_sections).
Proof.
  intros Hs. unfold getitem_upto. rewrite Hs. rewrite bind_ret.
  unfold np_split, shape0, slice0. rewrite Hs. reflexivity.
Qed.

Section BatcherClaims.
Variables A B : Type.
Implicit Types (X Xt : ndarray A) (y yt : ndarray B).

(** How far the failure of a batch size that is too large goes.  When the
    batch size, an int64, exceeds the number of samples of the train pair
    or of the test pair, so that the pair has no whole batch,
    [ndarray2list] raises and returns no list at all; for the train pair
    what is raised is the [ValueError] of [np.split] asked for zero
    sections. *)
Lemma ndarray2list_oversized_batch X y Xt yt (b : Z) n rX m rXt :
  shape X = n :: rX -> shape Xt = m :: rXt ->
  (0 < b < 2 ^ 63)%Z -> (Z.of_nat n < b \/ Z.of_nat m < b)%Z ->
  exists e,
    ndarray2list X y Xt yt b = raise e
    /\ ((Z.of_nat n < b)%Z -> e = ValueError msg_sections).
Proof.
  intros HX HXt [Hb _] Hsmall. unfold ndarray2list, shape0.
  rewrite HX, bind_ret, HXt, bind_ret.
  destruct (Z_lt_le_dec (Z.of_nat n) b) as [Hn|Hn].
  - rewrite (np_floordiv_small n Hn).
    rewrite (cut_and_split_nothing _ b _ HX). eauto.
  - destruct Hsmall as [Hs|Hm]; [lia|].
    rewrite (np_floordiv_small m Hm).
    destruct (getitem_upto_cases X (fst (np_divmod (Z.of_nat n) b) * b))
      as [[c1 ->]|[e ->]]; [rewrite bind_ret|rewrite bind_raise; eexists; split; [reflexivity|lia]].
    destruct (np_split_cases c1 (fst (np_divmod (Z.of_nat n) b)))
      as [[l1 ->]|[e ->]]; [rewrite bind_ret|rewrite bind_raise; eexists; split; [reflexivity|lia]].
    destruct (getitem_upto_cases y (fst (np_divmod (Z.of_nat n) b) * b))
      as [[c2 ->]|[e ->]]; [rewrite bind_ret|rewrite bind_raise; eexists; split; [reflexivity|lia]].
    destruct (np_split_cases c2 (fst (np_divmod (Z.of_nat n) b)))
      as [[l2 ->]|[e ->]]; [rewrite bind_ret|rewrite bind_raise; eexists; split; [reflexivity|lia]].
    rewrite (cut_and_split_nothing _ b _ HXt).
    eexists; split; [reflexivity|lia].
Qed.

(** Where the batcher does what is expected of it.  For a batch size
    [b > 0] that exceeds the sample count of neither pair, on arrays whose train pair has [n] samples each and
    whose test pair has [m] samples each, [ndarray2list] returns four
    lists: [n / b] chunks for each train array and [m / b] for each test
    array.  Every chunk has exactly [b] samples, chunk [i] holds samples
    [i*b .. (i+1)*b - 1] of its array, and fewer than [b] samples of each
    pair are left out. *)
Theorem ndarray2list_batches X y Xt yt (b n m : nat) rX ry rXt ryt :
  shape X = n :: rX -> shape y = n :: ry ->
  shape Xt = m :: rXt -> shape yt = m :: ryt ->
  (0 < b)%nat -> (b <= n)%nat -> (b <= m)%nat ->
  ndarray2list X y Xt yt (Z.of_nat b)
  = ret (batches b X, batches b y, batches b Xt, batches b yt)
  /\ (length (batches b X) = (n / b)%nat /\ length (batches b y) = (n / b)%nat
      /\ length (batches b Xt) = (m / b)%nat
      /\ length (batches b yt) = (m / b)%nat)
  /\ (Forall (fun c => shape c = b :: rX) (batches b X)
      /\ Forall (fun c => shape c = b :: ry) (batches b y)
      /\ Forall (fun c => shape c = b :: rXt) (batches b Xt)
      /\ Forall (fun c => shape c = b :: ryt) (batches b yt))
  /\ (forall i, (i < n / b)%nat ->
        nth_error (batches b X) i = Some (chunk_of rX b (data X) i)
        /\ nth_error (batches b y) i = Some (chunk_of ry b (data y) i))
  /\ (forall i, (i < m / b)%nat ->
        nth_error (batches b Xt) i = Some (chunk_of rXt b (data Xt) i)
        /\ nth_error (batches b yt) i = Some (chunk_of ryt b (data yt) i))
  /\ ((wf X -> Forall wf (batches b X)) /\ (wf y -> Forall wf (batches b y))
      /\ (wf Xt -> Forall wf (batches b Xt))
      /\ (wf yt -> Forall wf (batches b yt)))
  /\ (n / b * b <= n /\ n - n / b * b < b)%nat
  /\ (m / b * b <= m /\ m - m / b * b < b)%nat.
Proof.
  intros HX Hy HXt Hyt Hb Hn Hm.
  split; [|split; [|split; [|split; [|split; [|split; [|split]]]]]].
  - unfold ndarray2list, shape0.
    rewrite HX, bind_ret, HXt, bind_ret, !floordiv_nat by assumption.
    destruct (cut_and_split X HX Hb Hn) as (c1 & -> & _ & E1).
    rewrite bind_ret, E1, bind_ret.
    destruct (cut_and_split y Hy Hb Hn) as (c2 & -> & _ & E2).
    rewrite bind_ret, E2, bind_ret.
    destruct (cut_and_split Xt HXt Hb Hm) as (c3 & -> & _ & E3).
    rewrite bind_ret, E3, bind_ret.
    destruct (cut_and_split yt Hyt Hb Hm) as (c4 & -> & _ & E4).
    rewrite bind_ret, E4, bind_ret. reflexivity.
  - repeat split; eapply batches_length; eassumption.
  - repeat split; eapply batches_shape; eassumption.
  - intros i Hi. split; eapply batches_nth; eassumption.
  - intros i Hi. split; eapply batches_nth; eassumption.
  - repeat split; intros; eapply batches_wf; eassumption.
  - pose proof (Nat.Div0.mul_div_le n b).
    pose proof (Nat.mul_succ_div_gt n b ltac:(lia)). lia.
  - pose proof (Nat.Div0.mul_div_le m b).
    pose proof (Nat.mul_succ_div_gt m b ltac:(lia)). lia.
Qed.

(** C7. Whenever [ndarray2list] returns for a positive batch size, each of
    its four lists, concatenated in order along axis 0, is its array cut
    to the first [n_batches * batch_size] samples, [n_batches] being that
    of the pair. *)
Theorem ndarray2list_concatenate X y Xt yt (b : Z) w lX ly lXt lyt :
  (0 < b)%Z ->
  ndarray2list X y Xt yt b = (w, Ret (lX, ly, lXt, lyt)) ->
  exists n m cX cy cXt cyt,
    shape0 X = ret n /\ shape0 Xt = ret m
    /\ getitem_upto (Z.of_nat n / b * b) X = ret cX
    /\ getitem_upto (Z.of_nat n / b * b) y = ret cy
    /\ getitem_upto (Z.of_nat m / b * b) Xt = ret cXt
    /\ getitem_upto (Z.of_nat m / b * b) yt = ret cyt
    /\ shape cX = Z.to_nat (Z.of_nat n / b * b) :: tl (shape X)
    /\ shape cXt = Z.to_nat (Z.of_nat m / b * b) :: tl (shape Xt)
    /\ concatenate lX = Some cX /\ concatenate ly = Some cy
    /\ concatenate lXt = Some cXt /\ concatenate lyt = Some cyt.
Proof.
  intros Hb H. unfold ndarray2list in H.
  unfold shape0 in H at 1.
  destruct (shape X) as [|n rX] eqn:HX; [discriminate|].
  rewrite bind_ret in H. unfold shape0 in H at 1.
  destruct (shape Xt) as [|m rXt] eqn:HXt; [discriminate|].
  rewrite bind_ret in H.
  unfold np_divmod, np_floordiv in H. cbn [fst] in H.
  replace (b =? 0)%Z with false in H by (symmetry; apply Z.eqb_neq; lia).
  destruct (getitem_upto_cases X (Z.of_nat n / b * b)) as [[cX E1]|[e E1]];
    rewrite E1 in H; [rewrite bind_ret in H|discriminate].
  destruct (np_split_cases cX (Z.of_nat n / b)) as [[l1 S1]|[e S1]];
    rewrite S1 in H; [rewrite bind_ret in H|discriminate].
  destruct (getitem_upto_cases y (Z.of_nat n / b * b)) as [[cy E2]|[e E2]];
    rewrite E2 in H; [rewrite bind_ret in H|discriminate].
  destruct (np_split_cases cy (Z.of_nat n / b)) as [[l2 S2]|[e S2]];
    rewrite S2 in H; [rewrite bind_ret in H|discriminate].
  destruct (getitem_upto_cases Xt (Z.of_nat m / b * b)) as [[cXt E3]|[e E3]];
    rewrite E3 in H; [rewrite bind_ret in H|discriminate].
  destruct (np_split_cases cXt (Z.of_nat m / b)) as [[l3 S3]|[e S3]];
    rewrite S3 in H; [rewrite bind_ret in H|discriminate].
  destruct (getitem_upto_cases yt (Z.of_nat m / b * b)) as [[cyt E4]|[e E4]];
    rewrite E4 in H; [rewrite bind_ret in H|discriminate].
  destruct (np_split_cases cyt (Z.of_nat m / b)) as [[l4 S4]|[e S4]];
    rewrite S4 in H; [rewrite bind_ret in H|discriminate].
  unfold ret in H. injection H as _ <- <- <- <-.
  destruct (getitem_upto_inv _ _ E1) as (n1 & r1 & Hs1 & _ & Hc1 & Hl1).
  destruct (getitem_upto_inv _ _ E2) as (n2 & r2 & Hs2 & _ & Hc2 & Hl2).
  destruct (getitem_upto_inv _ _ E3) as (n3 & r3 & Hs3 & _ & Hc3 & Hl3).
  destruct (getitem_upto_inv _ _ E4) as (n4 & r4 & Hs4 & _ & Hc4 & Hl4).
  assert (Hstop : forall k, (Z.of_nat k / b * b <= Z.of_nat k)%Z).
  { intros k. pose proof (Z.mul_div_le (Z.of_nat k) b Hb). lia. }
  assert (Hpos : forall k, (0 <= Z.of_nat k / b)%Z).
  { intros k. apply Z.div_pos; lia. }
  exists n, m, cX, cy, cXt, cyt.
  repeat split; try assumption;
    try (eapply np_split_concatenate; eassumption).
  - unfold shape0. rewrite HX. reflexivity.
  - unfold shape0. rewrite HXt. reflexivity.
  - rewrite Hc1. rewrite HX in Hs1. injection Hs1 as <- <-. cbn [tl]. f_equal.
    unfold slice_stop. specialize (Hstop n). specialize (Hpos n).
    replace (Z.of_nat n / b * b <? 0)%Z with false
      by (symmetry; apply Z.ltb_ge; nia). lia.
  - rewrite Hc3. rewrite HXt in Hs3. injection Hs3 as <- <-. cbn [tl]. f_equal.
    unfold slice_stop. specialize (Hstop m). specialize (Hpos m).
    replace (Z.of_nat m / b * b <? 0)%Z with false
      by (symmetry; apply Z.ltb_ge; nia). lia.
Qed.

End BatcherClaims.

(** C1. The code where a batch size exceeds a sample count: with 3 train
    samples and a batch size of 5 the train pair has no whole batch, so that
    [n_train_batches] is 0; the code goes on to ask [np.split] for 0
    sections, and the call raises where an empty list of batches is the
    result to give: "The remainders are not included". *)
Lemma ndarray2list_batch_exceeds_train :
  let X := arange [3; 2]%nat in
  let y := arange [3]%nat in
  let Xt := arange [10; 2]%nat in
  let yt := arange [10]%nat in
  fst (np_divmod 3 5) = 0%Z
  /\ ndarray2list X y Xt yt 5 = raise (ValueError msg_sections)
  /\ ~ (exists w ly lXt lyt,
          ndarray2list X y Xt yt 5 = (w, Ret ([], ly, lXt, lyt))).
Proof.
  cbv zeta. split; [reflexivity|]. split; [reflexivity|].
  intros (w & ly & lXt & lyt & H). discriminate H.
Qed.

Example ndarray2list_oversized_batch_at_5 :
  exists e,
    ndarray2list (arange [3; 2]%nat) (arange [3]%nat)
      (arange [10; 2]%nat) (arange [10]%nat) 5 = raise e
    /\ ((Z.of_nat 3 < 5)%Z -> e = ValueError msg_sections).
Proof.
  apply (@ndarray2list_oversized_batch Z Z (arange [3; 2]%nat) (arange [3]%nat)
           (arange [10; 2]%nat) (arange [10]%nat) 5%Z 3%nat [2%nat] 10%nat
           [2%nat]).
  - reflexivity.
  - reflexivity.
  - lia.
  - left. simpl. lia.
Qed.

(** C6. The code where one pair has no whole batch: with a positive batch
    size of 2, 4 train samples and a single test sample, [n_test_batches]
    is 0 and the code asks [np.split] for 0 sections; the call raises, so
    that no array is partitioned, the train arrays neither, which have two
    whole batches. *)
Lemma ndarray2list_batch_exceeds_test :
  let X := arange [4; 2]%nat in
  let y := arange [4]%nat in
  let Xt := arange [1; 2]%nat in
  let yt := arange [1]%nat in
  (0 < 2)%Z
  /\ ndarray2list X y Xt yt 2 = raise (ValueError msg_sections)
  /\ ~ (exists w lX ly lXt lyt,
          ndarray2list X y Xt yt 2 = (w, Ret (lX, ly, lXt, lyt))).
Proof.
  cbv zeta. split; [lia|]. split; [reflexivity|].
  intros (w & lX & ly & lXt & lyt & H). discriminate H.
Qed.

Lemma ndarray2list_batches_witness :
  ndarray2list (arange [5; 2]%nat) (arange [5]%nat)
    (arange [4; 2]%nat) (arange [4]%nat) (Z.of_nat 2)
  = ret (batches 2 (arange [5; 2]%nat), batches 2 (arange [5]%nat),
         batches 2 (arange [4; 2]%nat), batches 2 (arange [4]%nat))
  /\ length (batches 2 (arange [5; 2]%nat)) = 2%nat.
Proof.
  destruct (@ndarray2list_batches Z Z (arange [5; 2]%nat) (arange [5]%nat)
              (arange [4; 2]%nat) (arange [4]%nat) 2%nat 5%nat 4%nat
              [2%nat] [] [2%nat] [] eq_refl eq_refl eq_refl eq_refl
              ltac:(lia) ltac:(lia) ltac:(lia))
    as (E & (L & _) & _).
  split; [exact E|exact L].
Defined.

Lemma ndarray2list_concatenate_witness :
  concatenate (batches 2 (arange [5; 2]%nat))
  = Some (mk_ndarray [4; 2]%nat [0; 1; 2; 3; 4; 5; 6; 7]%Z).
Proof.
  destruct (@ndarray2list_concatenate Z Z (arange [5; 2]%nat) (arange [5]%nat)
              (arange [4; 2]%nat) (arange [4]%nat) 2%Z []
              (batches 2 (arange [5; 2]%nat)) (batches 2 (arange [5]%nat))
              (batches 2 (arange [4; 2]%nat)) (batches 2 (arange [4]%nat))
              ltac:(lia) eq_refl)
    as (n & m & cX & cy & cXt & cyt & Hn & Hm & E1 & _ & _ & _ & _ & _ & C1 & _).
  vm_compute in Hn. injection Hn as <-.
  vm_compute in E1. injection E1 as <-.
  exact C1.
Defined.

(** The example of the specification: 105 samples in batches of 10 give 10
    chunks of 10 samples, and 5 samples are left out. *)
Example ndarray2list_105_by_10 :
  let X := full [105; 2]%nat 7 in
  let y := full [105]%nat 1 in
  exists lX ly lXt lyt,
    ndarray2list X y X y 10 = ret (lX, ly, lXt, lyt)
    /\ length lX = 10%nat /\ length ly = 10%nat
    /\ Forall (fun c => shape c = [10; 2]%nat) lX
    /\ Forall (fun c => shape c = [10]%nat) ly
    /\ (105 - length lX * 10 = 5)%nat.
Proof.
  cbv zeta. do 4 eexists. split; [vm_compute; reflexivity|].
  repeat split; repeat constructor.
Qed.

(** ** The pipeline: C9 *)



Lemma silent_bind {A B} (m : M A) (f : A -> M B) :
  silent m -> (forall a, silent (f a)) -> silent (bind m f).
Proof.
  unfold silent. destruct m as [w [a|e]]; cbn [fst]; intros -> Hf; [|reflexivity].
  unfold bind. specialize (Hf a). destruct (f a). exact Hf.
Qed.

Lemma silent_np_split {A} (a : ndarray A) q : silent (np_split a q).
Proof.
  destruct (np_split_cases a q) as [[l ->]|[e ->]]; reflexivity.
Qed.

Lemma silent_getitem_upto {A} (a : ndarray A) k : silent (getitem_upto k a).
Proof.
  destruct (getitem_upto_cases a k) as [[l ->]|[e ->]]; reflexivity.
Qed.

Lemma silent_shape0 {A} (a : ndarray A) : silent (shape0 a).
Proof. unfold shape0. destruct (shape a); reflexivity. Qed.

Lemma silent_ndarray2list {A B} (X : ndarray A) (y : ndarray B) Xt yt b :
  silent (ndarray2list X y Xt yt b).
Proof.
  unfold ndarray2list.
  repeat (apply silent_bind;
          [first [apply silent_shape0 | apply silent_getitem_upto
                 | apply silent_np_split]|intros ?]).
  reflexivity.
Qed.

Lemma silent_num_classes_from_labels labels :
  silent (num_classes_from_labels labels).
Proof.
  rewrite num_classes_from_labels_eq.
  destruct (unique labels) as [|m rest]; [reflexivity|].
  destruct (negb (m =? 0)%Z); [reflexivity|].
  destruct (check_increments (combine (m :: rest) rest)) as [w [[]|e]];
    reflexivity.
Qed.





Section PipelineClaims.
Variable A : Type.
Implicit Types (X Xt : ndarray A) (y yt : ndarray Z).



End PipelineClaims.


(** ** The examples of the specification *)

(** Images (20,28,28), masks (20,28,28) with values 0 and 1, batch size 5:
    one class, and images and masks become 4 chunks of shape (5,1,28,28). *)
Example pipeline_binary_masks :
  let chunks := repeat [5; 1; 28; 28]%nat 4 in
  fmap shapes_of
    (preprocess_training_image_data
       (PyArray (arange [20; 28; 28]%nat)) (PyArray (mask 2 [20; 28; 28]%nat))
       (PyArray (arange [20; 28; 28]%nat)) (PyArray (mask 2 [20; 28; 28]%nat))
       5)
  = ([warn_train_images; warn_test_images; warn_train_labels; warn_test_labels],
     Ret (chunks, chunks, chunks, chunks, 1%Z)).
Proof. vm_compute. reflexivity. Qed.

(** Masks with values 0, 1, 2, 3: four classes; the masks keep their rank
    and the images of rank 3 still get a channel axis. *)
Example pipeline_four_classes :
  exists w lX ly lXt lyt,
    preprocess_training_image_data
      (PyArray (arange [4; 3; 3]%nat)) (PyArray (mask 4 [4; 3; 3]%nat))
      (PyArray (arange [2; 3; 3]%nat)) (PyArray (mask 4 [2; 3; 3]%nat)) 2
    = (w, Ret (lX, ly, lXt, lyt, 4%Z))
    /\ w = [warn_train_images; warn_test_images]
    /\ Forall (fun c => shape c = [2; 1; 3; 3]%nat) lX
    /\ Forall (fun c => shape c = [2; 3; 3]%nat) ly.
Proof.
  do 5 eexists. split; [vm_compute; reflexivity|].
  repeat split; repeat constructor.
Qed.

(** Test labels that no encoding rule accepts do not stop the pipeline. *)
Example pipeline_unchecked_test_labels :
  (exists msg, num_classes_from_labels (full [2; 3; 3]%nat 7)
               = raise (AssertionError msg))
  /\ exists w lX ly lXt lyt,
       preprocess_training_image_data
         (PyArray (arange [4; 3; 3]%nat)) (PyArray (mask 4 [4; 3; 3]%nat))
         (PyArray (arange [2; 3; 3]%nat)) (PyArray (full [2; 3; 3]%nat 7)) 2
       = (w, Ret (lX, ly, lXt, lyt, 4%Z)).
Proof.
  split; [eexists; reflexivity|].
  do 5 eexists. vm_compute. reflexivity.
Qed.

(** * Further properties of the code *)

(** ** The class counter *)

Lemma sorted_same_values l1 : forall l2,
  StronglySorted Z.lt l1 -> StronglySorted Z.lt l2 ->
  same_values l1 l2 -> l1 = l2.
Proof.
  induction l1 as [|x l1 IH]; intros [|y l2] H1 H2 Hv.
  - reflexivity.
  - destruct (proj2 (Hv y)); left; reflexivity.
  - destruct (proj1 (Hv x)); left; reflexivity.
  - inversion H1 as [|? ? S1 A1]; inversion H2 as [|? ? S2 A2]; subst.
    rewrite Forall_forall in A1, A2.
    assert (x = y).
    { destruct (proj1 (Hv x) (or_introl eq_refl)) as [E|Hx]; [congruence|].
      destruct (proj2 (Hv y) (or_introl eq_refl)) as [E|Hy]; [congruence|].
      specialize (A1 y Hy). specialize (A2 x Hx). lia. }
    subst y. f_equal. apply IH; [assumption|assumption|].
    intros z; split; intros Hz.
    + destruct (proj1 (Hv z) (or_intror Hz)) as [E|Hz']; [|assumption].
      specialize (A1 z Hz). lia.
    + destruct (proj2 (Hv z) (or_intror Hz)) as [E|Hz']; [|assumption].
      specialize (A2 z Hz). lia.
Qed.

Lemma consecutive_tail x l :
  StronglySorted Z.lt (x :: l) -> consecutive (x :: l) -> consecutive l.
Proof.
  intros Hs Hc a b z Ha Hb Hz.
  inversion Hs as [|? ? _ Hall]; subst. rewrite Forall_forall in Hall.
  destruct (Hc a b z (or_intror Ha) (or_intror Hb) Hz) as [E|Hin];
    [|assumption].
  specialize (Hall a Ha). lia.
Qed.

Lemma consecutive_sorted_steps l : forall x,
  StronglySorted Z.lt (x :: l) -> consecutive (x :: l) ->
  check_increments (combine (x :: l) l) = ret tt.
Proof.
  induction l as [|y l IH]; intros x Hs Hc; [reflexivity|].
  inversion Hs as [|? ? Hs' Hall]; subst.
  inversion Hs' as [|? ? _ Hall']; subst.
  rewrite Forall_forall in Hall, Hall'.
  assert (Hxy : (x < y)%Z) by (apply Hall; left; reflexivity).
  assert (Hy : y = (x + 1)%Z).
  { destruct (Hc x y (x + 1)%Z (or_introl eq_refl)
                (or_intror (or_introl eq_refl)) ltac:(lia)) as [E|[E|Hin]];
      [lia|lia|].
    specialize (Hall' _ Hin). lia. }
  cbn [combine check_increments].
  replace (y - x =? 1)%Z with true by (symmetry; apply Z.eqb_eq; lia).
  cbn [negb]. apply IH; [assumption|].
  apply (consecutive_tail Hs Hc).
Qed.

Lemma consecutive_unique labels :
  consecutive (data labels) <-> consecutive (unique labels).
Proof.
  unfold consecutive. split; intros H x y z Hx Hy Hz.
  - rewrite unique_In in *. eauto.
  - rewrite <- unique_In in *. eauto.
Qed.

Lemma is_minimum_unique m m' l :
  is_minimum m l -> is_minimum m' l -> m = m'.
Proof.
  intros [H1 L1] [H2 L2]. specialize (L1 _ H2). specialize (L2 _ H1). lia.
Qed.

Lemma valid_labels_return labels :
  is_minimum 0 (data labels) -> consecutive (data labels) ->
  exists n, num_classes_from_labels labels = ret n /\ (1 <= n)%Z.
Proof.
  intros Hmin Hc. rewrite num_classes_from_labels_eq.
  assert (Hne : data labels <> []).
  { destruct Hmin as [Hin _]. intros E. rewrite E in Hin. exact Hin. }
  destruct (unique_nonempty labels Hne) as (m & rest & E).
  pose proof (unique_head_minimum labels E) as Hm.
  pose proof (is_minimum_unique Hm Hmin). subst m.
  pose proof (unique_sorted labels) as Hs.
  apply consecutive_unique in Hc. rewrite E in *.
  cbn [Z.eqb negb]. rewrite (consecutive_sorted_steps Hs Hc).
  eexists. split; [reflexivity|]. cbv zeta.
  remember (Z.of_nat (S (length rest))) as k eqn:Ek.
  destruct (k =? 2)%Z eqn:E2; [apply Z.eqb_eq in E2|]; lia.
Qed.

(** X1. [num_classes_from_labels] returns a class count exactly when 0 is
    the least label and the labels are consecutive integers; in every other
    case it raises. *)
Theorem num_classes_from_labels_returns_iff (labels : ndarray Z) :
  (exists n, num_classes_from_labels labels = ret n)
  <-> is_minimum 0 (data labels) /\ consecutive (data labels).
Proof.
  rewrite num_classes_from_labels_eq. split.
  - intros [n H].
    destruct (unique labels) as [|m rest] eqn:E; [discriminate|].
    pose proof (unique_head_minimum labels E) as Hmin.
    destruct (m =? 0)%Z eqn:Em; cbn [negb] in H; [|discriminate].
    apply Z.eqb_eq in Em. subst m. split; [assumption|].
    destruct (check_increments_cases (combine (0%Z :: rest) rest)) as [Ec|Ec];
      rewrite Ec in H; [|discriminate].
    apply check_increments_ok in Ec.
    apply consecutive_unique. rewrite E, Ec.
    intros x y z Hx Hy Hz. rewrite zrange_In in *. lia.
  - intros [Hmin Hc].
    destruct (valid_labels_return labels Hmin Hc) as (n & E & _).
    rewrite num_classes_from_labels_eq in E. eauto.
Qed.

(** X2. The class count depends on the set of label values only: arrays of
    any shapes that hold the same values, in any order and any number of
    times, give the same outcome. *)
Theorem num_classes_from_labels_same_values (l1 l2 : ndarray Z) :
  same_values (data l1) (data l2) ->
  num_classes_from_labels l1 = num_classes_from_labels l2.
Proof.
  intros Hv.
  assert (E : unique l1 = unique l2).
  { apply sorted_same_values; try apply unique_sorted.
    intros z. rewrite !unique_In. apply Hv. }
  rewrite !num_classes_from_labels_eq, E. reflexivity.
Qed.

Lemma num_classes_from_labels_same_values_witness :
  num_classes_from_labels (mk_ndarray [2; 3]%nat [2; 0; 1; 1; 0; 2]%Z)
  = num_classes_from_labels (mk_ndarray [4]%nat [0; 1; 2; 0]%Z).
Proof.
  apply num_classes_from_labels_same_values.
  intros z. simpl. lia.
Defined.

(** X3. Which error is raised.  A least label other than 0 gives
    "Labels should start from 0", whether or not the labels are consecutive;
    the message about the increment is for labels that start from 0 and have
    a gap. *)
Theorem num_classes_from_labels_messages (labels : ndarray Z) :
  (forall m, is_minimum m (data labels) -> m <> 0%Z ->
     num_classes_from_labels labels = raise (AssertionError msg_start))
  /\ (is_minimum 0 (data labels) -> ~ consecutive (data labels) ->
        num_classes_from_labels labels = raise (AssertionError msg_step)).
Proof.
  split.
  - intros m Hmin Hm.
    assert (Hne : data labels <> []).
    { destruct Hmin as [Hin _]. intros E. rewrite E in Hin. exact Hin. }
    destruct (unique_nonempty labels Hne) as (m' & rest & E).
    pose proof (is_minimum_unique (unique_head_minimum labels E) Hmin).
    subst m'. rewrite num_classes_from_labels_eq, E.
    apply Z.eqb_neq in Hm. rewrite Hm. reflexivity.
  - intros Hmin Hc.
    assert (Hne : data labels <> []).
    { destruct Hmin as [Hin _]. intros E. rewrite E in Hin. exact Hin. }
    destruct (unique_nonempty labels Hne) as (m' & rest & E).
    pose proof (is_minimum_unique (unique_head_minimum labels E) Hmin).
    subst m'. rewrite num_classes_from_labels_eq, E. cbn [Z.eqb negb].
    destruct (check_increments_cases (combine (0%Z :: rest) rest)) as [Ec|Ec];
      rewrite Ec; [|reflexivity].
    exfalso. apply Hc. apply check_increments_ok in Ec.
    apply consecutive_unique. rewrite E, Ec.
    intros x y z Hx Hy Hz. rewrite zrange_In in *. lia.
Qed.

Lemma num_classes_from_labels_messages_witness :
  num_classes_from_labels (mk_ndarray [3]%nat [1; 5; 9]%Z)
  = raise (AssertionError msg_start)
  /\ num_classes_from_labels (mk_ndarray [3]%nat [0; 2; 0]%Z)
     = raise (AssertionError msg_step).
Proof.
  split.
  - apply (proj1 (num_classes_from_labels_messages
                    (mk_ndarray [3]%nat [1; 5; 9]%Z)) 1%Z).
    + split; [left; reflexivity|]. intros z Hz. simpl in Hz. lia.
    + discriminate.
  - apply (proj2 (num_classes_from_labels_messages
                    (mk_ndarray [3]%nat [0; 2; 0]%Z))).
    + split; [left; reflexivity|]. intros z Hz. simpl in Hz. lia.
    + intros H. specialize (H 0%Z 2%Z 1%Z). simpl in H. lia.
Defined.

(** X4. What a returned class count tells about the labels.  A count of 3
    or more is the number of distinct labels, which are 0, ..., n-1; a count
    of 1 stands both for labels that are all 0 and for labels 0 and 1. *)
Theorem num_classes_from_labels_inverse (labels : ndarray Z) (n : Z) :
  num_classes_from_labels labels = ret n ->
  (n = 1%Z /\ (same_values (data labels) [0%Z]
               \/ same_values (data labels) [0%Z; 1%Z]))
  \/ ((3 <= n)%Z /\ forall z, In z (data labels) <-> (0 <= z < n)%Z).
Proof.
  rewrite num_classes_from_labels_eq.
  destruct (unique labels) as [|m rest] eqn:E; [discriminate|].
  destruct (m =? 0)%Z eqn:Em; cbn [negb]; [|discriminate].
  apply Z.eqb_eq in Em. subst m.
  destruct (check_increments_cases (combine (0%Z :: rest) rest)) as [Ec|Ec];
    rewrite Ec; [|discriminate].
  apply check_increments_ok in Ec.
  assert (Hin : forall z, In z (data labels)
                          <-> (0 <= z < Z.of_nat (S (length rest)))%Z).
  { intros z. rewrite <- unique_In, E, Ec, zrange_In. lia. }
  cbv zeta. unfold ret.
  remember (Z.of_nat (S (length rest))) as k eqn:Ek.
  destruct (k =? 2)%Z eqn:E2; intros H; injection H as Hn.
  - apply Z.eqb_eq in E2. left. split; [lia|]. right.
    intros z. rewrite Hin. simpl. lia.
  - apply Z.eqb_neq in E2.
    destruct (Z.eq_dec k 1) as [E1|E1].
    + left. split; [lia|]. left. intros z. rewrite Hin. simpl. lia.
    + right. split; [lia|]. intros z. rewrite Hin. lia.
Qed.

Lemma num_classes_from_labels_inverse_witness :
  (1%Z = 1%Z /\ (same_values [0; 1; 1; 0]%Z [0%Z]
                 \/ same_values [0; 1; 1; 0]%Z [0%Z; 1%Z]))
  \/ ((3 <= 1)%Z /\ forall z, In z [0; 1; 1; 0]%Z <-> (0 <= z < 1)%Z).
Proof.
  apply (@num_classes_from_labels_inverse
           (mk_ndarray [4]%nat [0; 1; 1; 0]%Z) 1%Z).
  reflexivity.
Defined.

(** ** The rank normalisers *)

Lemma same_content_refl {A} (a : ndarray A) : same_content a a.
Proof. repeat split. Qed.

Lemma same_content_add_channel {A} (a : ndarray A) :
  (1 <= ndim a)%Z -> same_content a (add_channel a).
Proof.
  intros H. destruct (ndim_pos_shape a H) as (n & rest & Hs).
  unfold same_content, add_channel, insert_axis. cbn [shape data].
  rewrite Hs. cbn. repeat split. lia.
Qed.

Lemma same_content_expand {A} r (a : ndarray A) :
  (1 <= r)%Z -> same_content a (expand_at_rank r a).
Proof.
  intros Hr. unfold expand_at_rank.
  destruct (ndim a =? r)%Z eqn:E; [|apply same_content_refl].
  apply Z.eqb_eq in E. apply same_content_add_channel. lia.
Qed.

Lemma same_content_expand_label {A} nc (a : ndarray A) :
  same_content a (expand_label nc a).
Proof.
  unfold expand_label. destruct (nc =? 1)%Z; [|apply same_content_refl].
  apply same_content_expand. lia.
Qed.

Lemma same_content_wf {A} (a a' : ndarray A) :
  same_content a a' -> wf a -> wf a'.
Proof. unfold wf. intros (Hd & _ & Hp) H. rewrite Hd, Hp. exact H. Qed.

Lemma expand_at_rank_changed {A} r msg (a : ndarray A) :
  In msg (notice r msg a) <-> expand_at_rank r a <> a.
Proof.
  unfold notice, expand_at_rank. destruct (ndim a =? r)%Z.
  - split; [intros _; apply add_channel_neq|intros _; left; reflexivity].
  - split; [intros []|intros H; destruct (H eq_refl)].
Qed.

Lemma expand_label_changed {A} nc msg (a : ndarray A) :
  In msg (notice_label nc msg a) <-> expand_label nc a <> a.
Proof.
  unfold notice_label, expand_label. destruct (nc =? 1)%Z.
  - apply expand_at_rank_changed.
  - split; [intros []|intros H; destruct (H eq_refl)].
Qed.

Lemma notice_nil_iff {A} r msg (a : ndarray A) :
  notice r msg a = [] <-> expand_at_rank r a = a.
Proof.
  unfold notice, expand_at_rank. destruct (ndim a =? r)%Z.
  - split; [discriminate|]. intros H. destruct (add_channel_neq H).
  - split; reflexivity.
Qed.

Lemma notice_label_nil_iff {A} nc msg (a : ndarray A) :
  notice_label nc msg a = [] <-> expand_label nc a = a.
Proof.
  unfold notice_label, expand_label. destruct (nc =? 1)%Z.
  - apply notice_nil_iff.
  - split; reflexivity.
Qed.

Lemma notice_only {A} r msg msg' (a : ndarray A) :
  msg' <> msg -> ~ In msg' (notice r msg a).
Proof.
  intros Hne. unfold notice. destruct (ndim a =? r)%Z; [|intros []].
  intros [E|[]]. congruence.
Qed.

Lemma notice_label_only {A} nc msg msg' (a : ndarray A) :
  msg' <> msg -> ~ In msg' (notice_label nc msg a).
Proof.
  intros Hne. unfold notice_label. destruct (nc =? 1)%Z; [|intros []].
  apply notice_only. assumption.
Qed.

Lemma notice_length {A} r msg (a : ndarray A) : (length (notice r msg a) <= 1)%nat.
Proof. unfold notice. destruct (ndim a =? r)%Z; simpl; lia. Qed.

Lemma notice_label_length {A} nc msg (a : ndarray A) :
  (length (notice_label nc msg a) <= 1)%nat.
Proof.
  unfold notice_label. destruct (nc =? 1)%Z; [apply notice_length|simpl; lia].
Qed.

Section NormaliserExtras.
Variables A B : Type.
Implicit Types (X Xt : ndarray A) (y yt : ndarray B).

(** X5. [check_image_dims] warns about an array exactly when it returns
    that array changed: each of its four warnings names one array, and
    there is no warning when nothing is changed. *)
Theorem check_image_dims_warns_iff_changed X y Xt yt (num_classes : Z) :
  exists w X' y' Xt' yt',
    check_image_dims X y Xt yt num_classes = (w, Ret (X', y', Xt', yt'))
    /\ (In warn_train_images w <-> X' <> X)
    /\ (In warn_test_images w <-> Xt' <> Xt)
    /\ (In warn_train_labels w <-> y' <> y)
    /\ (In warn_test_labels w <-> yt' <> yt)
    /\ (length w <= 4)%nat
    /\ (w = [] <-> X' = X /\ y' = y /\ Xt' = Xt /\ yt' = yt).
Proof.
  do 5 eexists. split; [apply check_image_dims_eq|].
  pose proof (expand_at_rank_changed 3 warn_train_images X) as H1.
  pose proof (expand_at_rank_changed 3 warn_test_images Xt) as H2.
  pose proof (expand_label_changed num_classes warn_train_labels y) as H3.
  pose proof (expand_label_changed num_classes warn_test_labels yt) as H4.
  pose proof (@notice_only A 3 warn_train_images) as O1.
  pose proof (@notice_only A 3 warn_test_images) as O2.
  pose proof (@notice_label_only B num_classes warn_train_labels) as O3.
  pose proof (@notice_label_only B num_classes warn_test_labels) as O4.
  assert (D : warn_train_images <> warn_test_images
              /\ warn_train_images <> warn_train_labels
              /\ warn_train_images <> warn_test_labels
              /\ warn_test_images <> warn_train_labels
              /\ warn_test_images <> warn_test_labels
              /\ warn_train_labels <> warn_test_labels)
    by (repeat split; discriminate).
  destruct D as (D1 & D2 & D3 & D4 & D5 & D6).
  split; [|split; [|split; [|split; [|split]]]].
  - rewrite !in_app_iff, <- H1. split; [|auto].
    intros [H|[H|[H|H]]]; [assumption| | |].
    + destruct (O2 warn_train_images Xt D1 H).
    + destruct (O3 warn_train_images y D2 H).
    + destruct (O4 warn_train_images yt D3 H).
  - rewrite !in_app_iff, <- H2. split; [|auto].
    intros [H|[H|[H|H]]]; [|assumption| |].
    + destruct (O1 warn_test_images X (not_eq_sym D1) H).
    + destruct (O3 warn_test_images y D4 H).
    + destruct (O4 warn_test_images yt D5 H).
  - rewrite !in_app_iff, <- H3. split; [|auto].
    intros [H|[H|[H|H]]]; [| |assumption|].
    + destruct (O1 warn_train_labels X (not_eq_sym D2) H).
    + destruct (O2 warn_train_labels Xt (not_eq_sym D4) H).
    + destruct (O4 warn_train_labels yt D6 H).
  - rewrite !in_app_iff, <- H4. split; [|auto].
    intros [H|[H|[H|H]]]; [| | |assumption].
    + destruct (O1 warn_test_labels X (not_eq_sym D3) H).
    + destruct (O2 warn_test_labels Xt (not_eq_sym D5) H).
    + destruct (O3 warn_test_labels y (not_eq_sym D6) H).
  - rewrite !length_app.
    pose proof (notice_length 3 warn_train_images X).
    pose proof (notice_length 3 warn_test_images Xt).
    pose proof (notice_label_length num_classes warn_train_labels y).
    pose proof (notice_label_length num_classes warn_test_labels yt). lia.
  - rewrite <- (notice_nil_iff 3 warn_train_images X),
      <- (notice_nil_iff 3 warn_test_images Xt),
      <- (notice_label_nil_iff num_classes warn_train_labels y),
      <- (notice_label_nil_iff num_classes warn_test_labels yt).
    split.
    + intros E. apply app_eq_nil in E as [E1 E].
      apply app_eq_nil in E as [E2 E]. apply app_eq_nil in E as [E3 E4]. auto.
    + intros (-> & -> & -> & ->). reflexivity.
Qed.

End NormaliserExtras.

Lemma ndim_compare_expand {A B} (X : ndarray A) (y : ndarray B) :
  ((ndim X ?= ndim y)%Z = Gt ->
     (ndim (expand_at_rank 3 X) ?= ndim (expand_at_rank 2 y))%Z = Gt)
  /\ ((ndim X ?= ndim y)%Z = Lt ->
        (ndim (expand_at_rank 2 X) ?= ndim (expand_at_rank 3 y))%Z = Lt).
Proof.
  rewrite !ndim_expand_at_rank by lia.
  split; intros C.
  - rewrite Z.compare_gt_iff in *.
    destruct (ndim X =? 3)%Z eqn:EX; destruct (ndim y =? 2)%Z eqn:Ey;
      rewrite ?Z.eqb_eq, ?Z.eqb_neq in *; lia.
  - rewrite Z.compare_lt_iff in *.
    destruct (ndim X =? 2)%Z eqn:EX; destruct (ndim y =? 3)%Z eqn:Ey;
      rewrite ?Z.eqb_eq, ?Z.eqb_neq in *; lia.
Qed.

Section NormaliserInvariants.
Variables A B : Type.
Implicit Types (X Xt : ndarray A) (y yt : ndarray B).

(** X6. [check_image_dims] returns each array with the same elements in the
    same order, the same number of samples and the same size; a
    well-formed array stays well-formed, and a pair with equally many
    samples keeps equally many. *)
Theorem check_image_dims_same_content X y Xt yt (num_classes : Z) :
  exists w X' y' Xt' yt',
    check_image_dims X y Xt yt num_classes = (w, Ret (X', y', Xt', yt'))
    /\ same_content X X' /\ same_content y y'
    /\ same_content Xt Xt' /\ same_content yt yt'
    /\ (wf X -> wf X') /\ (wf y -> wf y')
    /\ (wf Xt -> wf Xt') /\ (wf yt -> wf yt')
    /\ (hd_error (shape X) = hd_error (shape y) ->
        hd_error (shape X') = hd_error (shape y'))
    /\ (hd_error (shape Xt) = hd_error (shape yt) ->
        hd_error (shape Xt') = hd_error (shape yt')).
Proof.
  do 5 eexists. split; [apply check_image_dims_eq|].
  pose proof (@same_content_expand A 3 X ltac:(lia)) as C1.
  pose proof (same_content_expand_label num_classes y) as C2.
  pose proof (@same_content_expand A 3 Xt ltac:(lia)) as C3.
  pose proof (same_content_expand_label num_classes yt) as C4.
  repeat split; try (apply C1 || apply C2 || apply C3 || apply C4);
    try (apply same_content_wf; assumption).
  - intros H. destruct C1 as (_ & -> & _), C2 as (_ & -> & _). exact H.
  - intros H. destruct C3 as (_ & -> & _), C4 as (_ & -> & _). exact H.
Qed.

(** X7. [check_signal_dims] never raises and returns each array with the
    same elements in the same order, the same number of samples and the same
    size; it warns of nothing exactly when it changes nothing. *)
Theorem check_signal_dims_same_content X y Xt yt :
  exists w X' y' Xt' yt',
    check_signal_dims X y Xt yt = (w, Ret (X', y', Xt', yt'))
    /\ same_content X X' /\ same_content y y'
    /\ same_content Xt Xt' /\ same_content yt yt'
    /\ (wf X -> wf X') /\ (wf y -> wf y')
    /\ (wf Xt -> wf Xt') /\ (wf yt -> wf yt')
    /\ (w = [] <-> X' = X /\ y' = y /\ Xt' = Xt /\ yt' = yt).
Proof.
  pose proof (check_signal_dims_eq X y Xt yt) as E.
  assert (Hnil : forall r1 r2 m1 m2 m3 m4,
    notice r1 m1 X ++ notice r1 m2 Xt ++ notice r2 m3 y ++ notice r2 m4 yt = []
    <-> expand_at_rank r1 X = X /\ expand_at_rank r2 y = y
        /\ expand_at_rank r1 Xt = Xt /\ expand_at_rank r2 yt = yt).
  { intros. rewrite <- (notice_nil_iff r1 m1 X), <- (notice_nil_iff r1 m2 Xt),
      <- (notice_nil_iff r2 m3 y), <- (notice_nil_iff r2 m4 yt).
    split.
    - intros H. apply app_eq_nil in H as [E1 H].
      apply app_eq_nil in H as [E2 H]. apply app_eq_nil in H as [E3 E4]. auto.
    - intros (-> & -> & -> & ->). reflexivity. }
  destruct (ndim X ?= ndim y)%Z; do 5 eexists; (split; [exact E|]).
  - repeat split; auto using same_content_refl.
  - pose proof (@same_content_expand A 2 X ltac:(lia)) as C1.
    pose proof (@same_content_expand B 3 y ltac:(lia)) as C2.
    pose proof (@same_content_expand A 2 Xt ltac:(lia)) as C3.
    pose proof (@same_content_expand B 3 yt ltac:(lia)) as C4.
    split; [exact C1|]. split; [exact C2|]. split; [exact C3|].
    split; [exact C4|].
    repeat (split; [apply same_content_wf; assumption|]).
    apply Hnil.
  - pose proof (@same_content_expand A 3 X ltac:(lia)) as C1.
    pose proof (@same_content_expand B 2 y ltac:(lia)) as C2.
    pose proof (@same_content_expand A 3 Xt ltac:(lia)) as C3.
    pose proof (@same_content_expand B 2 yt ltac:(lia)) as C4.
    split; [exact C1|]. split; [exact C2|]. split; [exact C3|].
    split; [exact C4|].
    repeat (split; [apply same_content_wf; assumption|]).
    apply Hnil.
Qed.

(** X8. [check_signal_dims] keeps the order between the ranks of the two
    training arrays, and running it on its own result changes nothing and
    warns of nothing: one pass is enough. *)
Theorem check_signal_dims_idempotent X y Xt yt :
  exists w X' y' Xt' yt',
    check_signal_dims X y Xt yt = (w, Ret (X', y', Xt', yt'))
    /\ (ndim X' ?= ndim y')%Z = (ndim X ?= ndim y)%Z
    /\ check_signal_dims X' y' Xt' yt' = ret (X', y', Xt', yt').
Proof.
  pose proof (check_signal_dims_eq X y Xt yt) as E.
  destruct (ndim_compare_expand X y) as [Hgt Hlt].
  destruct (ndim X ?= ndim y)%Z eqn:C; do 5 eexists; (split; [exact E|]).
  - split; [exact C|]. rewrite check_signal_dims_eq, C. reflexivity.
  - specialize (Hlt eq_refl). split; [exact Hlt|].
    rewrite check_signal_dims_eq, Hlt.
    rewrite !notice_expanded, !expand_at_rank_idem by lia. reflexivity.
  - specialize (Hgt eq_refl). split; [exact Hgt|].
    rewrite check_signal_dims_eq, Hgt.
    rewrite !notice_expanded, !expand_at_rank_idem by lia. reflexivity.
Qed.

End NormaliserInvariants.

(** ** The batcher *)

Lemma getitem_upto_clamp {A} (a : ndarray A) N rest k :
  shape a = N :: rest ->
  getitem_upto (Z.of_nat k) a
  = ret (mk_ndarray (Nat.min k N :: rest)
           (firstn (Nat.min k N * prod rest) (data a))).
Proof.
  intros Hs. unfold getitem_upto, slice_stop, slice0. rewrite Hs.
  replace (Z.of_nat k <? 0)%Z with false by (symmetry; apply Z.ltb_ge; lia).
  rewrite Nat2Z.id.
  replace (Nat.min (Nat.min k N) N) with (Nat.min k N) by lia.
  cbn [Nat.min Nat.mul skipn]. rewrite Nat.sub_0_r. reflexivity.
Qed.

Lemma np_split_indivisible {A} (a : ndarray A) N rest q :
  shape a = N :: rest -> (0 < q)%nat -> (N mod q <> 0)%nat ->
  np_split a (Z.of_nat q) = raise (ValueError msg_division).
Proof.
  intros Hs Hq Hmod. unfold np_split, shape0. rewrite Hs, bind_ret.
  unfold np_mod.
  replace (Z.of_nat q =? 0)%Z with false by (symmetry; apply Z.eqb_neq; lia).
  rewrite <- Nat2Z.inj_mod.
  replace (Z.of_nat (N mod q) =? 0)%Z with false
    by (symmetry; apply Z.eqb_neq; lia).
  reflexivity.
Qed.

(** Cutting to [k] samples and splitting into [q > 0] sections: it works
    exactly when [q] divides the number of samples that are left. *)
Lemma cut_then_split {A B} (a : ndarray A) N rest k q
    (f : list (ndarray A) -> M B) :
  shape a = N :: rest -> (0 < q)%nat ->
  (cut <- getitem_upto (Z.of_nat k) a ;;
   l <- np_split cut (Z.of_nat q) ;; f l)
  = if (Nat.min k N mod q =? 0)%nat then f (cut_chunks k q a)
    else raise (ValueError msg_division).
Proof.
  intros Hs Hq. rewrite (getitem_upto_clamp a k Hs), bind_ret.
  destruct (Nat.min k N mod q =? 0)%nat eqn:E.
  - apply Nat.eqb_eq in E.
    erewrite np_split_ret; [|reflexivity|assumption|exact E].
    rewrite bind_ret. unfold cut_chunks. rewrite Hs. reflexivity.
  - apply Nat.eqb_neq in E.
    erewrite np_split_indivisible; [|reflexivity|assumption|exact E].
    reflexivity.
Qed.

Lemma cut_chunks_batches {A} (a : ndarray A) n rest b :
  shape a = n :: rest -> (0 < b)%nat -> (b <= n)%nat ->
  cut_chunks (n / b * b) (n / b) a = batches b a.
Proof.
  intros Hs Hb Hle. unfold cut_chunks, batches. rewrite Hs.
  assert (Hq : (0 < n / b)%nat) by (apply Nat.div_str_pos; lia).
  assert (Hk : (n / b * b <= n)%nat)
    by (rewrite Nat.mul_comm; apply Nat.Div0.mul_div_le).
  rewrite Nat.min_l by assumption.
  replace (n / b * b / (n / b))%nat with b
    by (rewrite (Nat.mul_comm (n / b) b), Nat.div_mul; lia).
  apply map_ext_in. intros i Hi. apply in_seq in Hi.
  apply chunk_of_firstn. nia.
Qed.

(** The batcher on arrays that all have a sample axis, for a batch size
    that neither pair is too small for. *)
Lemma ndarray2list_eq {A B} (X : ndarray A) (y : ndarray B) Xt yt
    (b n ny m nyt : nat) rX ry rXt ryt :
  shape X = n :: rX -> shape y = ny :: ry ->
  shape Xt = m :: rXt -> shape yt = nyt :: ryt ->
  (0 < b)%nat -> (b <= n)%nat -> (b <= m)%nat ->
  ndarray2list X y Xt yt (Z.of_nat b)
  = if (Nat.min (n / b * b) ny mod (n / b) =? 0)%nat
    then if (Nat.min (m / b * b) nyt mod (m / b) =? 0)%nat
         then ret (batches b X, cut_chunks (n / b * b) (n / b) y,
                   batches b Xt, cut_chunks (m / b * b) (m / b) yt)
         else raise (ValueError msg_division)
    else raise (ValueError msg_division).
Proof.
  intros HX Hy HXt Hyt Hb Hn Hm.
  assert (Hq : (0 < n / b)%nat) by (apply Nat.div_str_pos; lia).
  assert (Hp : (0 < m / b)%nat) by (apply Nat.div_str_pos; lia).
  unfold ndarray2list, shape0.
  rewrite HX, bind_ret, HXt, bind_ret, !floordiv_nat by assumption.
  rewrite <- !Nat2Z.inj_mul.
  rewrite (cut_then_split _ _ _ HX Hq).
  replace (Nat.min (n / b * b) n mod (n / b) =? 0)%nat with true.
  2:{ symmetry. apply Nat.eqb_eq.
      rewrite Nat.min_l by (rewrite Nat.mul_comm; apply Nat.Div0.mul_div_le).
      rewrite Nat.mul_comm. apply Nat.Div0.mod_mul. }
  rewrite (cut_chunks_batches X HX Hb Hn).
  rewrite (cut_then_split _ _ _ Hy Hq).
  destruct (Nat.min (n / b * b) ny mod (n / b) =? 0)%nat; [|reflexivity].
  rewrite (cut_then_split _ _ _ HXt Hp).
  replace (Nat.min (m / b * b) m mod (m / b) =? 0)%nat with true.
  2:{ symmetry. apply Nat.eqb_eq.
      rewrite Nat.min_l by (rewrite Nat.mul_comm; apply Nat.Div0.mul_div_le).
      rewrite Nat.mul_comm. apply Nat.Div0.mod_mul. }
  rewrite (cut_chunks_batches Xt HXt Hb Hm).
  rewrite (cut_then_split _ _ _ Hyt Hp).
  destruct (Nat.min (m / b * b) nyt mod (m / b) =? 0)%nat; reflexivity.
Qed.

Lemma np_floordiv_pos (n : nat) (b : Z) :
  (0 < fst (np_divmod (Z.of_nat n) b))%Z -> (0 < b <= Z.of_nat n)%Z.
Proof.
  unfold np_divmod, np_floordiv. cbn [fst].
  destruct (b =? 0)%Z eqn:E; [lia|]. apply Z.eqb_neq in E. intros H.
  destruct (Z_lt_le_dec b 0) as [Hneg|Hpos].
  - pose proof (Z.div_mod (Z.of_nat n) b E).
    pose proof (Z.mod_neg_bound (Z.of_nat n) b Hneg). nia.
  - split; [lia|].
    destruct (Z_lt_le_dec (Z.of_nat n) b) as [Hs|Hs]; [|assumption].
    rewrite Z.div_small in H by lia. lia.
Qed.

(** What a returned result of the batcher tells. *)
Lemma ndarray2list_inv {A B} (X : ndarray A) (y : ndarray B) Xt yt (b : Z)
    w lX ly lXt lyt :
  ndarray2list X y Xt yt b = (w, Ret (lX, ly, lXt, lyt)) ->
  exists n rX ny ry m rXt nyt ryt,
    shape X = n :: rX /\ shape y = ny :: ry
    /\ shape Xt = m :: rXt /\ shape yt = nyt :: ryt
    /\ (0 < b)%Z /\ (Z.to_nat b <= n)%nat /\ (Z.to_nat b <= m)%nat.
Proof.
  intros H. unfold ndarray2list in H.
  unfold shape0 in H at 1.
  destruct (shape X) as [|n rX] eqn:HX; [discriminate|].
  rewrite bind_ret in H. unfold shape0 in H at 1.
  destruct (shape Xt) as [|m rXt] eqn:HXt; [discriminate|].
  rewrite bind_ret in H.
  set (q := fst (np_divmod (Z.of_nat n) b)) in *.
  set (p := fst (np_divmod (Z.of_nat m) b)) in *.
  destruct (getitem_upto_cases X (q * b)) as [[c1 E1]|[e E1]];
    rewrite E1 in H; [rewrite bind_ret in H|discriminate].
  destruct (Z_lt_le_dec 0 q) as [Hq|Hq].
  2:{ destruct (np_split_no_section c1 Hq) as [e E]. rewrite E in H.
      discriminate. }
  destruct (np_split_cases c1 q) as [[l1 S1]|[e S1]];
    rewrite S1 in H; [rewrite bind_ret in H|discriminate].
  unfold getitem_upto in H at 1.
  destruct (shape y) as [|ny ry] eqn:Hy; [discriminate|].
  rewrite bind_ret in H.
  match type of H with
  | bind (np_split ?c _) _ = _ =>
      destruct (np_split_cases c q) as [[l2 S2]|[e S2]];
        rewrite S2 in H; [rewrite bind_ret in H|discriminate]
  end.
  destruct (getitem_upto_cases Xt (p * b)) as [[c3 E3]|[e E3]];
    rewrite E3 in H; [rewrite bind_ret in H|discriminate].
  destruct (Z_lt_le_dec 0 p) as [Hp|Hp].
  2:{ destruct (np_split_no_section c3 Hp) as [e E]. rewrite E in H.
      discriminate. }
  destruct (np_split_cases c3 p) as [[l3 S3]|[e S3]];
    rewrite S3 in H; [rewrite bind_ret in H|discriminate].
  unfold getitem_upto in H at 1.
  destruct (shape yt) as [|nyt ryt] eqn:Hyt; [discriminate|].
  apply np_floordiv_pos in Hq. apply np_floordiv_pos in Hp.
  exists n, rX, ny, ry, m, rXt, nyt, ryt.
  repeat split; try reflexivity; lia.
Qed.

Lemma cut_chunks_length {A} (a : ndarray A) n rest k q :
  shape a = n :: rest -> length (cut_chunks k q a) = q.
Proof.
  intros Hs. unfold cut_chunks. rewrite Hs, length_map, length_seq. reflexivity.
Qed.

Lemma cut_chunks_shape {A} (a : ndarray A) n rest k q :
  shape a = n :: rest ->
  Forall (fun c => shape c = (Nat.min k n / q)%nat :: rest) (cut_chunks k q a).
Proof.
  intros Hs. unfold cut_chunks. rewrite Hs. apply Forall_forall.
  intros c Hc. apply in_map_iff in Hc. destruct Hc as (i & <- & _). reflexivity.
Qed.

Lemma batches_concatenate {A} (a : ndarray A) n rest b :
  shape a = n :: rest -> (0 < b)%nat -> (b <= n)%nat ->
  concatenate (batches b a)
  = Some (mk_ndarray ((n / b * b)%nat :: rest)
            (firstn (n / b * b * prod rest) (data a))).
Proof.
  intros Hs Hb Hle.
  destruct (cut_and_split a Hs Hb Hle) as (cut & Hcut & _ & Hsplit).
  assert (Hk : (n / b * b <= n)%nat)
    by (rewrite Nat.mul_comm; apply Nat.Div0.mul_div_le).
  rewrite <- Nat2Z.inj_mul, (getitem_upto_ret a Hs Hk) in Hcut.
  unfold ret in Hcut. injection Hcut as <-.
  apply (np_split_concatenate _ _ Hsplit).
  cbn [shape data prod fold_right]. apply firstn_le_length.
Qed.

Section BatcherExtras.
Variables A B : Type.
Implicit Types (X Xt : ndarray A) (y yt : ndarray B).

(** X9. A batch size of zero or less is never accepted: whatever the
    arrays, [ndarray2list] raises. *)
Theorem ndarray2list_nonpositive_batch X y Xt yt (b : Z) :
  (b <= 0)%Z -> exists e, ndarray2list X y Xt yt b = raise e.
Proof.
  intros Hb.
  destruct (ndarray2list X y Xt yt b) as [w [[[[lX ly] lXt] lyt]|e]] eqn:E.
  - destruct (ndarray2list_inv _ _ _ _ _ E)
      as (? & ? & ? & ? & ? & ? & ? & ? & _ & _ & _ & _ & Hpos & _). lia.
  - pose proof (silent_ndarray2list X y Xt yt b) as S.
    unfold silent in S. rewrite E in S. cbn [fst] in S. subst w.
    exists e. reflexivity.
Qed.

(** X10. When the batcher returns.  On four arrays that have a sample axis,
    with [n] and [m] data samples and [ny] and [nyt] label samples, it
    returns exactly when the batch size [b] is positive, at most [n] and at
    most [m], and each label array, cut to the length kept of its data
    array, divides evenly into the number of batches of that data array.
    It does not ask that [ny = n]. *)
Theorem ndarray2list_returns_iff X y Xt yt (b : Z) n ny m nyt rX ry rXt ryt :
  shape X = n :: rX -> shape y = ny :: ry ->
  shape Xt = m :: rXt -> shape yt = nyt :: ryt ->
  let bn := Z.to_nat b in
  (exists r, ndarray2list X y Xt yt b = ret r)
  <-> (0 < b)%Z /\ (bn <= n)%nat /\ (bn <= m)%nat
      /\ (Nat.min (n / bn * bn) ny mod (n / bn) = 0)%nat
      /\ (Nat.min (m / bn * bn) nyt mod (m / bn) = 0)%nat.
Proof.
  intros HX Hy HXt Hyt bn. split.
  - intros [[[[lX ly] lXt] lyt] H].
    destruct (ndarray2list_inv _ _ _ _ _ H)
      as (n' & ? & ? & ? & m' & ? & ? & ? & HX' & _ & HXt' & _ & Hb & Hn & Hm).
    rewrite HX in HX'. injection HX' as <- <-.
    rewrite HXt in HXt'. injection HXt' as <- <-.
    fold bn in Hn, Hm.
    assert (Eb : b = Z.of_nat bn) by (unfold bn; lia).
    assert (Hbn : (0 < bn)%nat) by (unfold bn; lia).
    rewrite Eb in H.
    rewrite (ndarray2list_eq X y Xt yt HX Hy HXt Hyt Hbn Hn Hm) in H.
    destruct (Nat.min (n / bn * bn) ny mod (n / bn) =? 0)%nat eqn:E1;
      [|discriminate].
    destruct (Nat.min (m / bn * bn) nyt mod (m / bn) =? 0)%nat eqn:E2;
      [|discriminate].
    apply Nat.eqb_eq in E1, E2. auto.
  - intros (Hb & Hn & Hm & E1 & E2).
    assert (Eb : b = Z.of_nat bn) by (unfold bn; lia).
    assert (Hbn : (0 < bn)%nat) by (unfold bn; lia).
    rewrite Eb.
    rewrite (ndarray2list_eq X y Xt yt HX Hy HXt Hyt Hbn Hn Hm).
    apply Nat.eqb_eq in E1, E2. rewrite E1, E2. eexists. reflexivity.
Qed.

(** X11. What every returned result looks like.  There is no warning; the
    two train lists have the same length, [n / b >= 1], and the two test
    lists have the same length, [m / b >= 1]: no list is ever empty; and
    every chunk of a data array has exactly [b] samples. *)
Theorem ndarray2list_result_lengths X y Xt yt (b : Z) w lX ly lXt lyt :
  ndarray2list X y Xt yt b = (w, Ret (lX, ly, lXt, lyt)) ->
  w = []
  /\ exists n m,
       shape0 X = ret n /\ shape0 Xt = ret m
       /\ (1 <= n / Z.to_nat b)%nat /\ (1 <= m / Z.to_nat b)%nat
       /\ length lX = (n / Z.to_nat b)%nat /\ length ly = (n / Z.to_nat b)%nat
       /\ length lXt = (m / Z.to_nat b)%nat
       /\ length lyt = (m / Z.to_nat b)%nat
       /\ Forall (fun c => hd_error (shape c) = Some (Z.to_nat b)) lX
       /\ Forall (fun c => hd_error (shape c) = Some (Z.to_nat b)) lXt.
Proof.
  intros H.
  destruct (ndarray2list_inv _ _ _ _ _ H)
    as (n & rX & ny & ry & m & rXt & nyt & ryt
        & HX & Hy & HXt & Hyt & Hb & Hn & Hm).
  set (bn := Z.to_nat b) in *.
  assert (Eb : b = Z.of_nat bn) by (unfold bn; lia).
  assert (Hbn : (0 < bn)%nat) by (unfold bn; lia).
  rewrite Eb in H.
  rewrite (ndarray2list_eq X y Xt yt HX Hy HXt Hyt Hbn Hn Hm) in H.
  destruct (Nat.min (n / bn * bn) ny mod (n / bn) =? 0)%nat; [|discriminate].
  destruct (Nat.min (m / bn * bn) nyt mod (m / bn) =? 0)%nat; [|discriminate].
  unfold ret in H. injection H as <- <- <- <- <-.
  split; [reflexivity|]. exists n, m. unfold shape0. rewrite HX, HXt.
  split; [reflexivity|]. split; [reflexivity|].
  split; [apply Nat.div_str_pos; lia|]. split; [apply Nat.div_str_pos; lia|].
  rewrite (@batches_length _ X n rX bn HX), (@batches_length _ Xt m rXt bn HXt).
  rewrite (@cut_chunks_length _ y ny ry _ _ Hy),
    (@cut_chunks_length _ yt nyt ryt _ _ Hyt).
  repeat (split; [reflexivity|]).
  split; eapply Forall_impl; try (eapply batches_shape; eassumption);
    cbv beta; intros c ->; reflexivity.
Qed.

(** X12. The sample counts of a pair are not compared.  When the train
    labels have fewer samples than the train data keeps, but a number that
    the number of batches divides, [ndarray2list] returns all the same, and
    the label chunks are then shorter than the batch size. *)
Theorem ndarray2list_misaligned_labels X y Xt yt (b n ny m : nat)
    rX ry rXt ryt :
  shape X = n :: rX -> shape y = ny :: ry ->
  shape Xt = m :: rXt -> shape yt = m :: ryt ->
  (0 < b)%nat -> (b <= n)%nat -> (b <= m)%nat ->
  (ny < n / b * b)%nat -> (ny mod (n / b) = 0)%nat ->
  exists ly,
    ndarray2list X y Xt yt (Z.of_nat b)
    = ret (batches b X, ly, batches b Xt, batches b yt)
    /\ length ly = (n / b)%nat
    /\ Forall (fun c => shape c = (ny / (n / b))%nat :: ry) ly
    /\ (ny / (n / b) < b)%nat.
Proof.
  intros HX Hy HXt Hyt Hb Hn Hm Hlt Hdiv.
  exists (cut_chunks (n / b * b) (n / b) y).
  rewrite (ndarray2list_eq X y Xt yt HX Hy HXt Hyt Hb Hn Hm).
  assert (Hq : (0 < n / b)%nat) by (apply Nat.div_str_pos; lia).
  assert (Hp : (0 < m / b)%nat) by (apply Nat.div_str_pos; lia).
  assert (Hk : (m / b * b <= m)%nat)
    by (rewrite Nat.mul_comm; apply Nat.Div0.mul_div_le).
  rewrite (Nat.min_r (n / b * b) ny) by lia.
  rewrite (Nat.min_l (m / b * b) m) by lia.
  rewrite Hdiv.
  replace (m / b * b mod (m / b))%nat with O
    by (rewrite Nat.mul_comm; symmetry; apply Nat.Div0.mod_mul).
  cbn [Nat.eqb]. rewrite (cut_chunks_batches yt Hyt Hb Hm).
  split; [reflexivity|].
  split; [apply (@cut_chunks_length _ y ny ry _ _ Hy)|].
  split.
  - pose proof (@cut_chunks_shape _ y ny ry (n / b * b) (n / b) Hy) as Hsh.
    rewrite (Nat.min_r (n / b * b) ny) in Hsh by lia. exact Hsh.
  - apply Nat.Div0.div_lt_upper_bound. lia.
Qed.

(** X13. Nothing is lost when the batch size divides the sample counts: on
    well-formed aligned pairs with [n > 0] and [m > 0] samples, both
    multiples of [b], each of the four lists concatenates back to its whole
    array. *)
Theorem ndarray2list_roundtrip X y Xt yt (b n m : nat) rX ry rXt ryt :
  shape X = n :: rX -> shape y = n :: ry ->
  shape Xt = m :: rXt -> shape yt = m :: ryt ->
  wf X -> wf y -> wf Xt -> wf yt ->
  (0 < b)%nat -> (0 < n)%nat -> (0 < m)%nat ->
  (n mod b = 0)%nat -> (m mod b = 0)%nat ->
  exists lX ly lXt lyt,
    ndarray2list X y Xt yt (Z.of_nat b) = ret (lX, ly, lXt, lyt)
    /\ concatenate lX = Some X /\ concatenate ly = Some y
    /\ concatenate lXt = Some Xt /\ concatenate lyt = Some yt.
Proof.
  intros HX Hy HXt Hyt WX Wy WXt Wyt Hb Hn Hm Dn Dm.
  apply Nat.Div0.div_exact in Dn, Dm.
  assert (Hbn : (b <= n)%nat).
  { destruct (n / b)%nat as [|q]; [lia|]. nia. }
  assert (Hbm : (b <= m)%nat).
  { destruct (m / b)%nat as [|q]; [lia|]. nia. }
  assert (En : (n / b * b = n)%nat) by lia.
  assert (Em : (m / b * b = m)%nat) by lia.
  assert (Hback : forall C (a : ndarray C) k rest,
            shape a = k :: rest -> wf a -> (b <= k)%nat ->
            (k / b * b = k)%nat -> concatenate (batches b a) = Some a).
  { intros C a k rest Hs W Hle Ek.
    rewrite (batches_concatenate a Hs Hb Hle), Ek.
    unfold wf in W. rewrite Hs in W. cbn [prod fold_right] in W.
    fold (prod rest) in W. rewrite firstn_all2 by lia.
    destruct a as [sh d]. cbn [shape data] in *. subst sh. reflexivity. }
  exists (batches b X), (batches b y), (batches b Xt), (batches b yt).
  split.
  - rewrite (ndarray2list_eq X y Xt yt HX Hy HXt Hyt Hb Hbn Hbm).
    assert (T1 : (Nat.min (n / b * b) n mod (n / b) =? 0)%nat = true).
    { apply Nat.eqb_eq. rewrite Nat.min_l by lia.
      rewrite Nat.mul_comm. apply Nat.Div0.mod_mul. }
    assert (T2 : (Nat.min (m / b * b) m mod (m / b) =? 0)%nat = true).
    { apply Nat.eqb_eq. rewrite Nat.min_l by lia.
      rewrite Nat.mul_comm. apply Nat.Div0.mod_mul. }
    rewrite T1, T2.
    rewrite (cut_chunks_batches y Hy Hb Hbn), (cut_chunks_batches yt Hyt Hb Hbm).
    reflexivity.
  - repeat split; eapply Hback; eassumption.
Qed.

End BatcherExtras.

Lemma ndarray2list_nonpositive_batch_witness :
  exists e,
    ndarray2list (arange [4; 2]%nat) (arange [4]%nat)
      (arange [2; 2]%nat) (arange [2]%nat) (-2) = raise e.
Proof.
  apply (@ndarray2list_nonpositive_batch Z Z). lia.
Defined.

Lemma ndarray2list_returns_iff_witness :
  exists r,
    ndarray2list (arange [6; 2]%nat) (arange [4]%nat)
      (arange [3; 2]%nat) (arange [3]%nat) 3 = ret r.
Proof.
  apply (proj2 (@ndarray2list_returns_iff Z Z (arange [6; 2]%nat)
                  (arange [4]%nat) (arange [3; 2]%nat) (arange [3]%nat) 3%Z
                  6%nat 4%nat 3%nat 3%nat [2%nat] [] [2%nat] []
                  eq_refl eq_refl eq_refl eq_refl)).
  repeat split; try lia; reflexivity.
Defined.

Lemma ndarray2list_result_lengths_witness :
  length (batches 2 (arange [5]%nat)) = (5 / Z.to_nat 2)%nat.
Proof.
  destruct (@ndarray2list_result_lengths Z Z (arange [5; 2]%nat)
              (arange [5]%nat) (arange [4; 2]%nat) (arange [4]%nat) 2%Z []
              (batches 2 (arange [5; 2]%nat)) (batches 2 (arange [5]%nat))
              (batches 2 (arange [4; 2]%nat)) (batches 2 (arange [4]%nat))
              eq_refl)
    as (_ & n & m & Hn & _ & _ & _ & _ & L & _).
  vm_compute in Hn. injection Hn as <-. exact L.
Defined.

Lemma ndarray2list_misaligned_labels_witness :
  exists ly,
    ndarray2list (arange [6; 2]%nat) (arange [4]%nat)
      (arange [3; 2]%nat) (arange [3]%nat) (Z.of_nat 3)
    = ret (batches 3 (arange [6; 2]%nat), ly,
           batches 3 (arange [3; 2]%nat), batches 3 (arange [3]%nat))
    /\ length ly = (6 / 3)%nat
    /\ Forall (fun c => shape c = (4 / (6 / 3))%nat :: []) ly
    /\ (4 / (6 / 3) < 3)%nat.
Proof.
  apply (@ndarray2list_misaligned_labels Z Z (arange [6; 2]%nat)
           (arange [4]%nat) (arange [3; 2]%nat) (arange [3]%nat)
           3%nat 6%nat 4%nat 3%nat [2%nat] [] [2%nat] []);
    first [reflexivity | simpl; lia].
Defined.

Lemma ndarray2list_roundtrip_witness :
  exists lX ly lXt lyt,
    ndarray2list (arange [4; 2]%nat) (arange [4]%nat)
      (arange [2; 2]%nat) (arange [2]%nat) (Z.of_nat 2)
    = ret (lX, ly, lXt, lyt)
    /\ concatenate lX = Some (arange [4; 2]%nat)
    /\ concatenate ly = Some (arange [4]%nat)
    /\ concatenate lXt = Some (arange [2; 2]%nat)
    /\ concatenate lyt = Some (arange [2]%nat).
Proof.
  apply (@ndarray2list_roundtrip Z Z (arange [4; 2]%nat) (arange [4]%nat)
           (arange [2; 2]%nat) (arange [2]%nat) 2%nat 4%nat 2%nat
           [2%nat] [] [2%nat] []);
    first [reflexivity | lia].
Defined.

(** ** The pipeline *)

Lemma shape_expand_at_rank {A} r (a : ndarray A) n rest :
  (1 <= r)%Z -> shape a = n :: rest ->
  exists rest', shape (expand_at_rank r a) = n :: rest'.
Proof.
  intros Hr Hs. unfold expand_at_rank.
  destruct (ndim a =? r)%Z; [|eauto].
  unfold add_channel, insert_axis. cbn [shape]. rewrite Hs. cbn. eauto.
Qed.

Lemma shape_expand_label_head {A} nc (a : ndarray A) n rest :
  shape a = n :: rest -> exists rest', shape (expand_label nc a) = n :: rest'.
Proof.
  intros Hs. unfold expand_label. destruct (nc =? 1)%Z; [|eauto].
  apply shape_expand_at_rank with (rest := rest); [lia|assumption].
Qed.

(** The batcher on aligned pairs. *)
Lemma ndarray2list_aligned {A B} (X : ndarray A) (y : ndarray B) Xt yt
    (b n m : nat) rX ry rXt ryt :
  shape X = n :: rX -> shape y = n :: ry ->
  shape Xt = m :: rXt -> shape yt = m :: ryt ->
  (0 < b)%nat -> (b <= n)%nat -> (b <= m)%nat ->
  ndarray2list X y Xt yt (Z.of_nat b)
  = ret (batches b X, batches b y, batches b Xt, batches b yt).
Proof.
  intros HX Hy HXt Hyt Hb Hn Hm.
  rewrite (ndarray2list_eq X y Xt yt HX Hy HXt Hyt Hb Hn Hm).
  assert (T : forall k, (b <= k)%nat ->
            (Nat.min (k / b * b) k mod (k / b) =? 0)%nat = true).
  { intros k Hk. apply Nat.eqb_eq.
    rewrite Nat.min_l by (rewrite Nat.mul_comm; apply Nat.Div0.mul_div_le).
    rewrite Nat.mul_comm. apply Nat.Div0.mod_mul. }
  rewrite (T n Hn), (T m Hm).
  rewrite (cut_chunks_batches y Hy Hb Hn), (cut_chunks_batches yt Hyt Hb Hm).
  reflexivity.
Qed.

Section PipelineExtras.
Variable A : Type.
Implicit Types (X Xt : ndarray A) (y yt : ndarray Z).

(** The pipeline on four arrays, by the outcomes of its class counter and
    of its batcher. *)
Lemma preprocess_arrays_eq X y Xt yt b :
  preprocess_training_image_data
    (PyArray X) (PyArray y) (PyArray Xt) (PyArray yt) b
  = match num_classes_from_labels y with
    | (_, Raise e) => raise e
    | (_, Ret nc) =>
        match ndarray2list (expand_at_rank 3 X) (expand_label nc y)
                (expand_at_rank 3 Xt) (expand_label nc yt) b with
        | (_, Ret (lX, ly, lXt, lyt)) =>
            (fst (check_image_dims X y Xt yt nc), Ret (lX, ly, lXt, lyt, nc))
        | (_, Raise e) => (fst (check_image_dims X y Xt yt nc), Raise e)
        end
    end.
Proof.
  unfold preprocess_training_image_data.
  pose proof (silent_num_classes_from_labels y) as S1. unfold silent in S1.
  destruct (num_classes_from_labels y) as [w1 [nc|e]]; cbn [fst] in S1; subst w1;
    [|reflexivity].
  fold (ret nc). rewrite bind_ret.
  pose proof (silent_ndarray2list (expand_at_rank 3 X) (expand_label nc y)
                (expand_at_rank 3 Xt) (expand_label nc yt) b) as S2.
  unfold silent in S2.
  rewrite check_image_dims_eq, bind_Ret. cbv beta iota. cbn [fst].
  destruct (ndarray2list (expand_at_rank 3 X) (expand_label nc y)
              (expand_at_rank 3 Xt) (expand_label nc yt) b)
    as [w2 [[[[lX ly] lXt] lyt]|e]]; cbn [fst] in S2; subst w2.
  - fold (ret (lX, ly, lXt, lyt)). rewrite bind_ret. cbn [ret fst snd].
    rewrite app_nil_r. reflexivity.
  - cbn [bind fst snd]. rewrite app_nil_r. reflexivity.
Qed.

(** X14. The pipeline works end to end on valid data: when the train labels
    start from 0 and are consecutive, the pairs are aligned and the batch
    size is positive and at most both sample counts, it returns the batches
    of the normalised arrays with the class count, after the warnings of
    the normaliser. *)
Theorem preprocess_training_image_data_returns X y Xt yt (b n m : nat)
    rX ry rXt ryt :
  shape X = n :: rX -> shape y = n :: ry ->
  shape Xt = m :: rXt -> shape yt = m :: ryt ->
  is_minimum 0 (data y) -> consecutive (data y) ->
  (0 < b)%nat -> (b <= n)%nat -> (b <= m)%nat ->
  exists nc,
    num_classes_from_labels y = ret nc /\ (1 <= nc)%Z
    /\ preprocess_training_image_data
         (PyArray X) (PyArray y) (PyArray Xt) (PyArray yt) (Z.of_nat b)
       = (fst (check_image_dims X y Xt yt nc),
          Ret (batches b (expand_at_rank 3 X), batches b (expand_label nc y),
               batches b (expand_at_rank 3 Xt), batches b (expand_label nc yt),
               nc)).
Proof.
  intros HX Hy HXt Hyt Hmin Hc Hb Hn Hm.
  destruct (valid_labels_return y Hmin Hc) as (nc & E & Hnc).
  exists nc. split; [exact E|]. split; [exact Hnc|].
  rewrite preprocess_arrays_eq, E. unfold ret.
  destruct (@shape_expand_at_rank A 3 X n rX ltac:(lia) HX) as (r1 & H1).
  destruct (shape_expand_label_head nc y Hy) as (r2 & H2).
  destruct (@shape_expand_at_rank A 3 Xt m rXt ltac:(lia) HXt) as (r3 & H3).
  destruct (shape_expand_label_head nc yt Hyt) as (r4 & H4).
  rewrite (ndarray2list_aligned _ _ _ _ H1 H2 H3 H4 Hb Hn Hm).
  reflexivity.
Qed.

(** X15. How the pipeline fails on four arrays.  An error of the class
    counter comes out as it is, before any warning; an error of the batcher
    comes out after the warnings of the normaliser, which has already
    run. *)
Theorem preprocess_training_image_data_failures X y Xt yt (b : Z) :
  (forall e, num_classes_from_labels y = raise e ->
     preprocess_training_image_data
       (PyArray X) (PyArray y) (PyArray Xt) (PyArray yt) b = raise e)
  /\ (forall nc e,
        num_classes_from_labels y = ret nc ->
        ndarray2list (expand_at_rank 3 X) (expand_label nc y)
          (expand_at_rank 3 Xt) (expand_label nc yt) b = raise e ->
        preprocess_training_image_data
          (PyArray X) (PyArray y) (PyArray Xt) (PyArray yt) b
        = (fst (check_image_dims X y Xt yt nc), Raise e)).
Proof.
  split.
  - intros e E. rewrite preprocess_arrays_eq, E. reflexivity.
  - intros nc e E1 E2. rewrite preprocess_arrays_eq, E1. unfold ret.
    rewrite E2. reflexivity.
Qed.

(** X16. What every returned result of the pipeline looks like: the class
    count is at least 1 and is not 2, no list of batches is empty, the two
    train lists are equally long and so are the two test lists, and every
    image chunk has [batch_size] samples. *)
Theorem preprocess_training_image_data_result X y Xt yt (b : Z)
    w lX ly lXt lyt nc :
  preprocess_training_image_data
    (PyArray X) (PyArray y) (PyArray Xt) (PyArray yt) b
  = (w, Ret (lX, ly, lXt, lyt, nc)) ->
  (1 <= nc)%Z /\ nc <> 2%Z
  /\ lX <> [] /\ lXt <> []
  /\ length lX = length ly /\ length lXt = length lyt
  /\ Forall (fun c => hd_error (shape c) = Some (Z.to_nat b)) lX
  /\ Forall (fun c => hd_error (shape c) = Some (Z.to_nat b)) lXt.
Proof.
  rewrite preprocess_arrays_eq.
  pose proof (silent_num_classes_from_labels y) as S1. unfold silent in S1.
  destruct (num_classes_from_labels y) as [w1 [nc'|e]] eqn:E1;
    [|discriminate].
  cbn [fst] in S1. subst w1.
  destruct (ndarray2list (expand_at_rank 3 X) (expand_label nc' y)
              (expand_at_rank 3 Xt) (expand_label nc' yt) b)
    as [w2 [[[[l1 l2] l3] l4]|e]] eqn:E2; [|discriminate].
  intros H. injection H as _ <- <- <- <- <-.
  assert (Hnc : (1 <= nc')%Z /\ nc' <> 2%Z).
  { rewrite num_classes_from_labels_eq in E1.
    destruct (unique y) as [|m rest]; [discriminate|].
    destruct (negb (m =? 0)%Z); [discriminate|].
    destruct (check_increments (combine (m :: rest) rest)) as [w' [[]|e]];
      [|discriminate].
    cbv zeta in E1. unfold ret in E1.
    remember (Z.of_nat (S (length rest))) as k eqn:Ek.
    destruct (k =? 2)%Z eqn:Ek2; injection E1 as Hn.
    - apply Z.eqb_eq in Ek2. lia.
    - apply Z.eqb_neq in Ek2. lia. }
  destruct (ndarray2list_inv _ _ _ _ _ E2)
    as (n & rX & ny & ry & m & rXt & nyt & ryt
        & HX & Hy & HXt & Hyt & Hb & Hn & Hm).
  set (bn := Z.to_nat b) in *.
  assert (Eb : b = Z.of_nat bn) by (unfold bn; lia).
  assert (Hbn : (0 < bn)%nat) by (unfold bn; lia).
  rewrite Eb in E2.
  rewrite (ndarray2list_eq _ _ _ _ HX Hy HXt Hyt Hbn Hn Hm) in E2.
  destruct (Nat.min (n / bn * bn) ny mod (n / bn) =? 0)%nat; [|discriminate].
  destruct (Nat.min (m / bn * bn) nyt mod (m / bn) =? 0)%nat; [|discriminate].
  unfold ret in E2. injection E2 as _ <- <- <- <-.
  assert (Hq : (0 < n / bn)%nat) by (apply Nat.div_str_pos; lia).
  assert (Hp : (0 < m / bn)%nat) by (apply Nat.div_str_pos; lia).
  pose proof (@batches_length _ _ n rX bn HX) as L1.
  pose proof (@batches_length _ _ m rXt bn HXt) as L3.
  pose proof (@cut_chunks_length _ _ ny ry (n / bn * bn) (n / bn) Hy) as L2.
  pose proof (@cut_chunks_length _ _ nyt ryt (m / bn * bn) (m / bn) Hyt) as L4.
  destruct Hnc as [Hnc1 Hnc2].
  split; [exact Hnc1|]. split; [exact Hnc2|].
  split; [intros E; rewrite E in L1; simpl in L1; lia|].
  split; [intros E; rewrite E in L3; simpl in L3; lia|].
  split; [lia|]. split; [lia|].
  split; eapply Forall_impl; try (eapply batches_shape; eassumption);
    cbv beta; intros c ->; reflexivity.
Qed.

End PipelineExtras.

Lemma preprocess_training_image_data_returns_witness :
  exists nc,
    num_classes_from_labels (mk_ndarray [2; 1; 1]%nat [0; 1]%Z) = ret nc
    /\ (1 <= nc)%Z
    /\ preprocess_training_image_data
         (PyArray (arange [2; 1; 1]%nat))
         (PyArray (mk_ndarray [2; 1; 1]%nat [0; 1]%Z))
         (PyArray (arange [1; 1; 1]%nat))
         (PyArray (mk_ndarray [1; 1; 1]%nat [1]%Z)) (Z.of_nat 1)
       = (fst (check_image_dims (arange [2; 1; 1]%nat)
                 (mk_ndarray [2; 1; 1]%nat [0; 1]%Z) (arange [1; 1; 1]%nat)
                 (mk_ndarray [1; 1; 1]%nat [1]%Z) nc),
          Ret (batches 1 (expand_at_rank 3 (arange [2; 1; 1]%nat)),
               batches 1 (expand_label nc (mk_ndarray [2; 1; 1]%nat [0; 1]%Z)),
               batches 1 (expand_at_rank 3 (arange [1; 1; 1]%nat)),
               batches 1 (expand_label nc (mk_ndarray [1; 1; 1]%nat [1]%Z)),
               nc)).
Proof.
  apply (@preprocess_training_image_data_returns Z (arange [2; 1; 1]%nat)
           (mk_ndarray [2; 1; 1]%nat [0; 1]%Z) (arange [1; 1; 1]%nat)
           (mk_ndarray [1; 1; 1]%nat [1]%Z) 1%nat 2%nat 1%nat
           [1; 1]%nat [1; 1]%nat [1; 1]%nat [1; 1]%nat);
    try reflexivity; try lia.
  - split; [left; reflexivity|]. simpl. intros z Hz. lia.
  - intros x y z Hx Hy Hz. simpl in *. lia.
Defined.

Lemma preprocess_training_image_data_failures_witness :
  preprocess_training_image_data
    (PyArray (arange [2; 1; 1]%nat)) (PyArray (mk_ndarray [2; 1; 1]%nat [0; 1]%Z))
    (PyArray (arange [1; 1; 1]%nat)) (PyArray (mk_ndarray [1; 1; 1]%nat [1]%Z)) 5
  = ([warn_train_images; warn_test_images; warn_train_labels; warn_test_labels],
     Raise (ValueError msg_sections)).
Proof.
  apply (proj2 (@preprocess_training_image_data_failures Z
                  (arange [2; 1; 1]%nat) (mk_ndarray [2; 1; 1]%nat [0; 1]%Z)
                  (arange [1; 1; 1]%nat) (mk_ndarray [1; 1; 1]%nat [1]%Z) 5)
               1%Z (ValueError msg_sections));
    reflexivity.
Defined.

Lemma preprocess_training_image_data_result_witness :
  (1 <= 1)%Z /\ 1%Z <> 2%Z
  /\ batches 1 (add_channel (arange [2; 1; 1]%nat)) <> []
  /\ batches 1 (add_channel (arange [1; 1; 1]%nat)) <> []
  /\ length (batches 1 (add_channel (arange [2; 1; 1]%nat)))
     = length (batches 1 (add_channel (mk_ndarray [2; 1; 1]%nat [0; 1]%Z)))
  /\ length (batches 1 (add_channel (arange [1; 1; 1]%nat)))
     = length (batches 1 (add_channel (mk_ndarray [1; 1; 1]%nat [1]%Z)))
  /\ Forall (fun c => hd_error (shape c) = Some (Z.to_nat 1))
       (batches 1 (add_channel (arange [2; 1; 1]%nat)))
  /\ Forall (fun c => hd_error (shape c) = Some (Z.to_nat 1))
       (batches 1 (add_channel (arange [1; 1; 1]%nat))).
Proof.
  apply (@preprocess_training_image_data_result Z
           (arange [2; 1; 1]%nat) (mk_ndarray [2; 1; 1]%nat [0; 1]%Z)
           (arange [1; 1; 1]%nat) (mk_ndarray [1; 1; 1]%nat [1]%Z) 1%Z
           [warn_train_images; warn_test_images;
            warn_train_labels; warn_test_labels]
           _ (batches 1 (add_channel (mk_ndarray [2; 1; 1]%nat [0; 1]%Z)))
           _ (batches 1 (add_channel (mk_ndarray [1; 1; 1]%nat [1]%Z))) 1%Z).
  reflexivity.
Defined.

(** ** Conversion to tensors *)

Lemma rank_shape2 {A} (a : ndarray A) :
  ndim a = 2%Z -> exists n l, shape a = [n; l].
Proof.
  unfold ndim. destruct (shape a) as [|n [|l [|? ?]]]; simpl; try lia. eauto.
Qed.

Lemma rank_shape4 {A} (a : ndarray A) :
  ndim a = 4%Z -> exists n c h v, shape a = [n; c; h; v].
Proof.
  unfold ndim. destruct (shape a) as [|n [|c [|h [|v [|? ?]]]]]; simpl; try lia.
  eauto 6.
Qed.

Section TorchFormatFacts.
Variables F T : Type.
Variables fmin fmax fsub fdiv : F -> F -> F.
Variable to_float : F -> T.

Local Abbreviation format_image :=
  (torch_format_image fmin fmax fsub fdiv to_float).
Local Abbreviation format_spectra :=
  (torch_format_spectra fmin fmax fsub fdiv to_float).
Local Abbreviation format_any := (torch_format fmin fmax fsub fdiv to_float).
Local Abbreviation tensor_of := (normalized fmin fmax fsub fdiv to_float).
Local Abbreviation rescaled := (rescale fmin fmax fsub fdiv to_float).

Lemma rescale_length (d : list F) : length (rescaled d) = length d.
Proof.
  unfold rescale. destruct d as [|x l]; [reflexivity|].
  rewrite !length_map. reflexivity.
Qed.

(** Minimum, range, rescaling and conversion of an array, as the two
    functions do them. *)
Lemma normalize_steps (a : ndarray F) :
  (lo <- np_amin fmin a ;;
   r <- np_ptp fmin fmax fsub a ;;
   ret (from_numpy_float to_float
          (div_scalar fdiv (sub_scalar fsub a lo) r)))
  = tensor_of a.
Proof.
  unfold np_amin, np_ptp, normalized, rescale.
  destruct (data a) as [|x l] eqn:E; [reflexivity|].
  rewrite !bind_ret.
  unfold from_numpy_float, div_scalar, sub_scalar. cbn [shape data].
  rewrite E. reflexivity.
Qed.

Lemma torch_format_image_eq (a : ndarray F) :
  format_image a =
  if (ndim a =? 3)%Z then tensor_of (add_channel a)
  else if (ndim a =? 4)%Z then
    match nth_error (shape a) 1 with
    | Some c => if (c =? 1)%nat then tensor_of a
                else raise (AssertionError msg_image_channel)
    | None => raise (IndexError "tuple index out of range")
    end
  else raise (AssertionError msg_image_rank).
Proof.
  unfold torch_format_image.
  destruct (ndim a =? 3)%Z eqn:E3.
  - cbn [orb negb]. rewrite bind_ret.
    apply Z.eqb_eq in E3. destruct (rank3_shape a E3) as (n & h & v & Hs).
    unfold expand_dims. rewrite Hs. cbn [length Nat.leb]. rewrite bind_ret.
    rewrite normalize_steps. unfold add_channel. rewrite Hs. reflexivity.
  - destruct (ndim a =? 4)%Z eqn:E4; cbn [orb negb]; [|reflexivity].
    rewrite bind_ret. unfold shape_at.
    destruct (nth_error (shape a) 1) as [c|]; [|reflexivity].
    rewrite bind_ret. destruct (c =? 1)%nat; cbn [negb]; [|reflexivity].
    rewrite bind_ret. apply normalize_steps.
Qed.

Lemma torch_format_spectra_eq (a : ndarray F) :
  format_spectra a =
  if (ndim a =? 2)%Z then tensor_of (add_channel a)
  else if (ndim a =? 3)%Z then
    match nth_error (shape a) 1 with
    | Some c => if (c =? 1)%nat then tensor_of a
                else raise (AssertionError msg_spectra_channel)
    | None => raise (IndexError "tuple index out of range")
    end
  else raise (AssertionError msg_spectra_rank).
Proof.
  unfold torch_format_spectra.
  destruct (ndim a =? 2)%Z eqn:E2.
  - cbn [orb negb]. rewrite bind_ret.
    apply Z.eqb_eq in E2. destruct (rank_shape2 a E2) as (n & l & Hs).
    unfold expand_dims. rewrite Hs. cbn [length Nat.leb]. rewrite bind_ret.
    rewrite normalize_steps. unfold add_channel. rewrite Hs. reflexivity.
  - destruct (ndim a =? 3)%Z eqn:E3; cbn [orb negb]; [|reflexivity].
    rewrite bind_ret. unfold shape_at.
    destruct (nth_error (shape a) 1) as [c|]; [|reflexivity].
    rewrite bind_ret. destruct (c =? 1)%nat; cbn [negb]; [|reflexivity].
    rewrite bind_ret. apply normalize_steps.
Qed.

Lemma tensor_of_cases (a : ndarray F) :
  (data a = [] /\ tensor_of a = raise (ValueError msg_amin_empty))
  \/ (data a <> [] /\ tensor_of a = ret (mk_ndarray (shape a) (rescaled (data a)))).
Proof.
  unfold normalized. destruct (data a) as [|x l]; [left|right]; split;
    try reflexivity. discriminate.
Qed.

Lemma silent_format_image (a : ndarray F) : silent (format_image a).
Proof.
  rewrite torch_format_image_eq.
  destruct (ndim a =? 3)%Z.
  - destruct (tensor_of_cases (add_channel a)) as [[_ ->]|[_ ->]]; reflexivity.
  - destruct (ndim a =? 4)%Z; [|reflexivity].
    destruct (nth_error (shape a) 1) as [c|]; [|reflexivity].
    destruct (c =? 1)%nat; [|reflexivity].
    destruct (tensor_of_cases a) as [[_ ->]|[_ ->]]; reflexivity.
Qed.

(** X17. [torch_format_image] returns a tensor exactly for a non-empty
    array that is 3-D, or 4-D with a channel axis of size 1. *)
Theorem torch_format_image_returns_iff (a : ndarray F) :
  (exists t, format_image a = ret t)
  <-> data a <> []
      /\ (ndim a = 3%Z \/ (ndim a = 4%Z /\ nth_error (shape a) 1 = Some 1%nat)).
Proof.
  rewrite torch_format_image_eq.
  destruct (ndim a =? 3)%Z eqn:E3.
  - apply Z.eqb_eq in E3.
    destruct (tensor_of_cases (add_channel a)) as [[Hd ->]|[Hd ->]];
      cbn [add_channel data] in Hd.
    + split; [intros [t H]; discriminate|]. intros [H _]. contradiction.
    + split; [auto|]. intros _. eexists. reflexivity.
  - apply Z.eqb_neq in E3.
    destruct (ndim a =? 4)%Z eqn:E4.
    + apply Z.eqb_eq in E4.
      destruct (nth_error (shape a) 1) as [c|] eqn:Ec.
      * destruct (c =? 1)%nat eqn:E1.
        -- apply Nat.eqb_eq in E1. subst c.
           destruct (tensor_of_cases a) as [[Hd ->]|[Hd ->]].
           ++ split; [intros [t H]; discriminate|]. intros [H _]. contradiction.
           ++ split; [auto|]. intros _. eexists. reflexivity.
        -- apply Nat.eqb_neq in E1.
           split; [intros [t H]; discriminate|].
           intros [_ [H|[_ H]]]; [contradiction|congruence].
      * split; [intros [t H]; discriminate|].
        intros [_ [H|[_ H]]]; [contradiction|discriminate].
    + apply Z.eqb_neq in E4.
      split; [intros [t H]; discriminate|].
      intros [_ [H|[H _]]]; contradiction.
Qed.

(** X18. Whatever tensor [torch_format_image] returns has shape
    (n, 1, h, w) and holds the elements of the array, in their order, each
    rescaled by the minimum and the range of the whole array; the number of
    elements is kept. *)
Theorem torch_format_image_result (a : ndarray F) w (t : ndarray T) :
  format_image a = (w, Ret t) ->
  (exists n h v, shape t = [n; 1%nat; h; v])
  /\ data t = rescaled (data a)
  /\ length (data t) = length (data a)
  /\ prod (shape t) = prod (shape a)
  /\ (wf a -> wf t).
Proof.
  intros H.
  assert (Hgen : forall a' : ndarray F,
            tensor_of a' = (w, Ret t) ->
            w = [] /\ shape t = shape a' /\ data t = rescaled (data a')).
  { intros a' H'. destruct (tensor_of_cases a') as [[_ E]|[_ E]];
      rewrite E in H'; [discriminate|].
    unfold ret in H'. injection H' as <- <-. auto. }
  assert (Hfin : forall a' : ndarray F,
            tensor_of a' = (w, Ret t) -> data a' = data a ->
            prod (shape a') = prod (shape a) ->
            (exists n h v, shape a' = [n; 1%nat; h; v]) ->
            (exists n h v, shape t = [n; 1%nat; h; v])
            /\ data t = rescaled (data a)
            /\ length (data t) = length (data a)
            /\ prod (shape t) = prod (shape a) /\ (wf a -> wf t)).
  { intros a' H' Hd Hp Hs. destruct (Hgen a' H') as (-> & Et & Ed).
    rewrite Hd in Ed. rewrite Et.
    split; [exact Hs|]. split; [exact Ed|].
    assert (L : length (data t) = length (data a))
      by (rewrite Ed; apply rescale_length).
    split; [exact L|]. split; [exact Hp|].
    unfold wf. rewrite L, Et, Hp. auto. }
  rewrite torch_format_image_eq in H.
  destruct (ndim a =? 3)%Z eqn:E3.
  - apply Z.eqb_eq in E3. destruct (rank3_shape a E3) as (n & h & v & Hs).
    apply (Hfin _ H); [reflexivity| |].
    + unfold add_channel, insert_axis. cbn [shape]. rewrite Hs. cbn. lia.
    + exists n, h, v. unfold add_channel, insert_axis. cbn [shape].
      rewrite Hs. reflexivity.
  - destruct (ndim a =? 4)%Z eqn:E4; [|discriminate].
    apply Z.eqb_eq in E4. destruct (rank_shape4 a E4) as (n & c & h & v & Hs).
    rewrite Hs in H. cbn [nth_error] in H.
    destruct (c =? 1)%nat eqn:E1; [|discriminate].
    apply Nat.eqb_eq in E1. subst c.
    apply (Hfin _ H); [reflexivity|reflexivity|].
    exists n, h, v. exact Hs.
Qed.

(** X19. A 3-D stack of images and the same stack with its channel axis
    written out give the same outcome of [torch_format_image]. *)
Theorem torch_format_image_add_channel (a : ndarray F) :
  ndim a = 3%Z -> format_image (add_channel a) = format_image a.
Proof.
  intros E3. rewrite !torch_format_image_eq.
  rewrite ndim_add_channel by lia. rewrite E3. cbn [Z.add Z.eqb Pos.add Pos.eqb Pos.succ].
  destruct (rank3_shape a E3) as (n & h & v & Hs).
  unfold add_channel at 1, insert_axis. cbn [shape]. rewrite Hs. reflexivity.
Qed.

(** X20. The errors of [torch_format_image], in the order they are
    looked for: a wrong rank, then a 4-D array whose second axis is not 1
    (both [AssertionError], also for an empty array), and only then an
    empty array, which [np.amin] refuses. *)
Theorem torch_format_image_errors (a : ndarray F) :
  (ndim a <> 3%Z -> ndim a <> 4%Z ->
     format_image a = raise (AssertionError msg_image_rank))
  /\ (ndim a = 4%Z -> nth_error (shape a) 1 <> Some 1%nat ->
        format_image a = raise (AssertionError msg_image_channel))
  /\ (data a = [] ->
      ndim a = 3%Z \/ (ndim a = 4%Z /\ nth_error (shape a) 1 = Some 1%nat) ->
        format_image a = raise (ValueError msg_amin_empty)).
Proof.
  rewrite torch_format_image_eq. split; [|split].
  - intros H3 H4. apply Z.eqb_neq in H3, H4. rewrite H3, H4. reflexivity.
  - intros H4 Hc. rewrite H4. cbn [Z.eqb Pos.eqb].
    destruct (rank_shape4 a H4) as (n & c & h & v & Hs).
    rewrite Hs in *. cbn [nth_error] in *.
    destruct (c =? 1)%nat eqn:E1; [|reflexivity].
    apply Nat.eqb_eq in E1. subst c. destruct (Hc eq_refl).
  - intros Hd [H3|[H4 Hc]].
    + rewrite H3. cbn [Z.eqb Pos.eqb]. unfold normalized.
      cbn [add_channel data]. rewrite Hd. reflexivity.
    + rewrite H4, Hc. cbn [Z.eqb Pos.eqb Nat.eqb]. unfold normalized.
      rewrite Hd. reflexivity.
Qed.

(** X21. [torch_format_spectra] returns a tensor exactly for a non-empty
    array that is 2-D, or 3-D with a channel axis of size 1; the tensor has
    shape (n, 1, length) and holds the elements of the array, in their
    order, rescaled by the minimum and the range of the whole array. *)
Theorem torch_format_spectra_returns_iff (a : ndarray F) :
  ((exists w t, format_spectra a = (w, Ret t))
   <-> data a <> []
       /\ (ndim a = 2%Z
           \/ (ndim a = 3%Z /\ nth_error (shape a) 1 = Some 1%nat)))
  /\ (forall w t, format_spectra a = (w, Ret t) ->
        (exists n l, shape t = [n; 1%nat; l])
        /\ data t = rescaled (data a)).
Proof.
  rewrite torch_format_spectra_eq.
  destruct (ndim a =? 2)%Z eqn:E2.
  - apply Z.eqb_eq in E2. destruct (rank_shape2 a E2) as (n & l & Hs).
    destruct (tensor_of_cases (add_channel a)) as [[Hd ->]|[Hd ->]];
      cbn [add_channel data shape] in *.
    + split; [|intros w t H; discriminate].
      split; [intros (w & t & H); discriminate|]. intros [H _]. contradiction.
    + split; [split; [auto|]; intros _; do 2 eexists; reflexivity|].
      intros w t H. unfold ret in H. injection H as <- <-.
      split; [|reflexivity].
      exists n, l. cbn [shape]. unfold insert_axis. rewrite Hs. reflexivity.
  - apply Z.eqb_neq in E2.
    destruct (ndim a =? 3)%Z eqn:E3.
    + apply Z.eqb_eq in E3. destruct (rank3_shape a E3) as (n & c & l & Hs).
      rewrite Hs. cbn [nth_error].
      destruct (c =? 1)%nat eqn:E1.
      * apply Nat.eqb_eq in E1. subst c.
        destruct (tensor_of_cases a) as [[Hd ->]|[Hd ->]].
        -- split; [|intros w t H; discriminate].
           split; [intros (w & t & H); discriminate|]. intros [H _]. contradiction.
        -- split; [split; [auto|]; intros _; do 2 eexists; reflexivity|].
           intros w t H. unfold ret in H. injection H as <- <-.
           split; [|reflexivity].
           exists n, l. exact Hs.
      * apply Nat.eqb_neq in E1.
        split; [|intros w t H; discriminate].
        split; [intros (w & t & H); discriminate|].
        intros [_ [H|[_ H]]]; [contradiction|congruence].
    + apply Z.eqb_neq in E3.
      split; [|intros w t H; discriminate].
      split; [intros (w & t & H); discriminate|].
      intros [_ [H|[H _]]]; contradiction.
Qed.

(** X22. A 2-D set of spectra and the same set with its channel axis
    written out give the same outcome of [torch_format_spectra]. *)
Theorem torch_format_spectra_add_channel (a : ndarray F) :
  ndim a = 2%Z -> format_spectra (add_channel a) = format_spectra a.
Proof.
  intros E2. rewrite !torch_format_spectra_eq.
  rewrite ndim_add_channel by lia. rewrite E2.
  cbn [Z.add Z.eqb Pos.add Pos.eqb Pos.succ].
  destruct (rank_shape2 a E2) as (n & l & Hs).
  unfold add_channel at 1, insert_axis. cbn [shape]. rewrite Hs. reflexivity.
Qed.

(** X23. The deprecated [torch_format] ends as [torch_format_image] does,
    with the same tensor or the same error, and warns of its deprecation
    exactly once, also when it fails. *)
Theorem torch_format_deprecated (a : ndarray F) :
  format_any a = ([msg_deprecated], snd (format_image a)).
Proof.
  unfold torch_format, warn. rewrite bind_Ret.
  pose proof (silent_format_image a) as S. unfold silent in S.
  rewrite S. reflexivity.
Qed.

End TorchFormatFacts.

Lemma torch_format_image_result_witness :
  (exists n h v, [1; 1; 1; 2]%nat = [n; 1%nat; h; v])
  /\ [0; 1]%Z = rescale Z.min Z.max Z.sub Z.div (fun x => x) [0; 1]%Z
  /\ length [0; 1]%Z = length [0; 1]%Z
  /\ prod [1; 1; 1; 2]%nat = prod [1; 1; 2]%nat
  /\ (wf (arange [1; 1; 2]%nat) -> wf (mk_ndarray [1; 1; 1; 2]%nat [0; 1]%Z)).
Proof.
  apply (@torch_format_image_result Z Z Z.min Z.max Z.sub Z.div (fun x => x)
           (arange [1; 1; 2]%nat) [] (mk_ndarray [1; 1; 1; 2]%nat [0; 1]%Z)).
  reflexivity.
Defined.

Lemma torch_format_image_add_channel_witness :
  torch_format_image Z.min Z.max Z.sub Z.div (fun x => x)
    (add_channel (arange [2; 2; 2]%nat))
  = torch_format_image Z.min Z.max Z.sub Z.div (fun x => x)
      (arange [2; 2; 2]%nat).
Proof.
  apply (@torch_format_image_add_channel Z Z Z.min Z.max Z.sub Z.div
           (fun x => x) (arange [2; 2; 2]%nat)).
  reflexivity.
Defined.

Lemma torch_format_image_errors_witness :
  torch_format_image Z.min Z.max Z.sub Z.div (fun x => x) (arange [0; 3]%nat)
  = raise (AssertionError msg_image_rank)
  /\ torch_format_image Z.min Z.max Z.sub Z.div (fun x => x)
       (arange [2; 3; 1; 1]%nat)
     = raise (AssertionError msg_image_channel)
  /\ torch_format_image Z.min Z.max Z.sub Z.div (fun x => x)
       (arange [0; 2; 2]%nat)
     = raise (ValueError msg_amin_empty).
Proof.
  split; [|split].
  - apply (proj1 (@torch_format_image_errors Z Z Z.min Z.max Z.sub Z.div
                    (fun x => x) (arange [0; 3]%nat))); discriminate.
  - apply (proj1 (proj2 (@torch_format_image_errors Z Z Z.min Z.max Z.sub
                           Z.div (fun x => x) (arange [2; 3; 1; 1]%nat))));
      [reflexivity|discriminate].
  - apply (proj2 (proj2 (@torch_format_image_errors Z Z Z.min Z.max Z.sub
                           Z.div (fun x => x) (arange [0; 2; 2]%nat))));
      [reflexivity|left; reflexivity].
Defined.

Lemma torch_format_spectra_add_channel_witness :
  torch_format_spectra Z.min Z.max Z.sub Z.div (fun x => x)
    (add_channel (arange [2; 3]%nat))
  = torch_format_spectra Z.min Z.max Z.sub Z.div (fun x => x)
      (arange [2; 3]%nat).
Proof.
  apply (@torch_format_spectra_add_channel Z Z Z.min Z.max Z.sub Z.div
           (fun x => x) (arange [2; 3]%nat)).
  reflexivity.
Defined.
